(** * The drape_frontend animation system (animation_system.cpp)

    A shallow embedding of the animation scheduler of the map renderer:
    the elapsed-time interpolators, the composite animations built from
    them and the [AnimationSystem] that queues groups of animations.

    Conventions.
    - A C++ [double] is a binary64 float of the kernel ([PrimFloat.float]),
      so every sum, difference and quotient rounds as the compiled code
      does, and [nan] and the infinities are values.
    - A method that mutates its receiver returns the new receiver.
    - [std::set] is a [gset], [std::map] a [gmap], [std::list] and
      [std::deque] are lists; a [drape_ptr] that may be null is an [option].
    - Functions are those of a release build, where [ASSERT] expands to
      nothing; the assertion of a function is given as a comment, and the
      debug build is modelled where a property depends on it
      ([FollowAnimation.GetProperty]). *)

From Stdlib Require Import Floats ZArith NArith List Bool.
From stdpp Require Import base tactics option list gmap.

#[local] Set Warnings "-inexact-float".
#[local] Open Scope float_scope.

(** ** Doubles *)

Abbreviation double := float.

(** [std::min] and [std::max] of <algorithm>: the first argument is
    returned unless the comparison picks the second. *)
Definition std_min (a b : double) : double := if b <? a then b else a.
Definition std_max (a b : double) : double := if a <? b then b else a.

(** [a > b] and [a != b] on doubles. *)
Definition gtb (a b : double) : bool := b <? a.
Definition neqb (a b : double) : bool := negb (a =? b).

(** Modelled from the spec: [my::AlmostEqualAbs] of base/math.hpp, which is
    not among the sources; "the pixel distance is ~0" is an absolute
    difference below the tolerance. *)
Definition AlmostEqualAbs (x y eps : double) : bool := abs (x - y) <? eps.

(** Modelled from the spec: [math::pi4], a quarter of pi ("a quarter-turn
    takes 0.5s"); base/math.hpp is not among the sources. *)
Definition pi4 : double := 0x1.921fb54442d18p-1.

Definition CalcAnimSpeedDuration (pxDiff pxSpeed : double) : double :=
  let kEps := 1e-5 in
  if AlmostEqualAbs pxDiff 0 kEps then 0
  else abs pxDiff / pxSpeed.

(** ** Geometry and interpolation primitives

    Modelled from the spec: the point and screen types of geometry/ and the
    linear interpolation of animation/interpolations.hpp are external
    collaborators that are not among the sources; only what the animation
    code calls is kept. *)

Record PointD := mkPointD { pt_x : double; pt_y : double }.

(** [p != q] on points: not both coordinates equal. *)
Definition PointD_neqb (p q : PointD) : bool :=
  negb ((pt_x p =? pt_x q) && (pt_y p =? pt_y q)).

Definition PointD_Length (p q : PointD) : double :=
  sqrt ((pt_x p - pt_x q) * (pt_x p - pt_x q) + (pt_y p - pt_y q) * (pt_y p - pt_y q)).

Record ScreenBase := mkScreenBase {
  PixelRect_SizeX : double;
  PixelRect_SizeY : double;
  GtoP : PointD -> PointD
}.

Definition InterpolateDouble (startV endV t : double) : double :=
  startV + (endV - startV) * t.

Definition InterpolatePoint (startPt endPt : PointD) (t : double) : PointD :=
  mkPointD (pt_x startPt + (pt_x endPt - pt_x startPt) * t)
           (pt_y startPt + (pt_y endPt - pt_y startPt) * t).

(** ** Interpolator *)

Module Interpolator.

Record t := mk {
  m_elapsedTime : double;
  m_duration : double;
  m_delay : double
}.

(** The constructor; it asserts [m_duration >= 0.0]. *)
Definition create (duration delay : double) : t :=
  mk 0 duration delay.

Definition IsFinished (i : t) : bool :=
  gtb (m_elapsedTime i) (m_duration i + m_delay i).

Definition Advance (elapsedSeconds : double) (i : t) : t :=
  mk (m_elapsedTime i + elapsedSeconds) (m_duration i) (m_delay i).

Definition SetMaxDuration (maxDuration : double) (i : t) : t :=
  mk (m_elapsedTime i) (std_min (m_duration i) maxDuration) (m_delay i).

Definition GetT (i : t) : double :=
  if IsFinished i then 1
  else std_max (m_elapsedTime i - m_delay i) 0 / m_duration i.

Definition GetElapsedTime (i : t) : double := m_elapsedTime i.

Definition GetDuration (i : t) : double := m_duration i.

End Interpolator.

(** ** The typed interpolators

    Each one extends [Interpolator] (the field [base]) with its end points
    and its current value, recomputed by [Advance]. *)

Module PositionInterpolator.

Record t := mk {
  base : Interpolator.t;
  m_startPosition : PointD;
  m_endPosition : PointD;
  m_position : PointD
}.

Definition GetMoveDuration (startPosition endPosition : PointD) (convertor : ScreenBase) : double :=
  let kMinMoveDuration := 0.2 in
  let kMinSpeedScalar := 0.2 in
  let kMaxSpeedScalar := 7.0 in
  let kEps := 1e-5 in
  let pixelLength :=
    PointD_Length (GtoP convertor endPosition) (GtoP convertor startPosition) in
  if pixelLength <? kEps then 0
  else
    let minSize := std_min (PixelRect_SizeX convertor) (PixelRect_SizeY convertor) in
    if pixelLength <? kMinSpeedScalar * minSize then kMinMoveDuration
    else
      let pixelSpeed := kMaxSpeedScalar * minSize in
      CalcAnimSpeedDuration pixelLength pixelSpeed.

Definition create_delayed (delay : double) (startPosition endPosition : PointD)
    (convertor : ScreenBase) : t :=
  mk (Interpolator.create (GetMoveDuration startPosition endPosition convertor) delay)
     startPosition endPosition startPosition.

Definition create (startPosition endPosition : PointD) (convertor : ScreenBase) : t :=
  create_delayed 0 startPosition endPosition convertor.

Definition Advance (elapsedSeconds : double) (p : t) : t :=
  let b := Interpolator.Advance elapsedSeconds (base p) in
  mk b (m_startPosition p) (m_endPosition p)
     (InterpolatePoint (m_startPosition p) (m_endPosition p) (Interpolator.GetT b)).

Definition SetMaxDuration (maxDuration : double) (p : t) : t :=
  mk (Interpolator.SetMaxDuration maxDuration (base p))
     (m_startPosition p) (m_endPosition p) (m_position p).

(** Modelled from the spec: the inline getter of the header. *)
Definition GetPosition (p : t) : PointD := m_position p.

End PositionInterpolator.

Module AngleInterpolator.

Record t := mk {
  base : Interpolator.t;
  m_startAngle : double;
  m_endAngle : double;
  m_angle : double
}.

Definition GetRotateDuration (startAngle endAngle : double) : double :=
  0.5 * abs (endAngle - startAngle) / pi4.

Definition create_delayed (delay startAngle endAngle : double) : t :=
  mk (Interpolator.create (GetRotateDuration startAngle endAngle) delay)
     startAngle endAngle startAngle.

Definition create (startAngle endAngle : double) : t :=
  create_delayed 0 startAngle endAngle.

Definition Advance (elapsedSeconds : double) (a : t) : t :=
  let b := Interpolator.Advance elapsedSeconds (base a) in
  mk b (m_startAngle a) (m_endAngle a)
     (InterpolateDouble (m_startAngle a) (m_endAngle a) (Interpolator.GetT b)).

Definition SetMaxDuration (maxDuration : double) (a : t) : t :=
  mk (Interpolator.SetMaxDuration maxDuration (base a))
     (m_startAngle a) (m_endAngle a) (m_angle a).

(** Modelled from the spec: the inline getter of the header. *)
Definition GetAngle (a : t) : double := m_angle a.

End AngleInterpolator.

Module ScaleInterpolator.

Record t := mk {
  base : Interpolator.t;
  m_startScale : double;
  m_endScale : double;
  m_scale : double
}.

(** Resize 2.0 times should be done for 0.3 seconds. *)
Definition kPixelSpeed : double := 2.0 / 0.3.

Definition GetScaleDuration (startScale endScale : double) : double :=
  let '(startScale, endScale) :=
    if gtb startScale endScale then (endScale, startScale)
    else (startScale, endScale) in
  CalcAnimSpeedDuration (endScale / startScale) kPixelSpeed.

Definition create_delayed (delay startScale endScale : double) : t :=
  mk (Interpolator.create (GetScaleDuration startScale endScale) delay)
     startScale endScale startScale.

Definition create (startScale endScale : double) : t :=
  create_delayed 0 startScale endScale.

Definition Advance (elapsedSeconds : double) (s : t) : t :=
  let b := Interpolator.Advance elapsedSeconds (base s) in
  mk b (m_startScale s) (m_endScale s)
     (InterpolateDouble (m_startScale s) (m_endScale s) (Interpolator.GetT b)).

Definition SetMaxDuration (maxDuration : double) (s : t) : t :=
  mk (Interpolator.SetMaxDuration maxDuration (base s))
     (m_startScale s) (m_endScale s) (m_scale s).

(** Modelled from the spec: the inline getter of the header. *)
Definition GetScale (s : t) : double := m_scale s.

End ScaleInterpolator.

(** ** Objects, properties and property values

    Modelled from the spec: animation_system.h is not among the sources. It
    declares the enumerated objects and properties, [TObject] and
    [TProperty], the variant [TPropValue] of a double or a point, and the
    abstract class [Animation]. *)

Abbreviation TObject := N.
Abbreviation TProperty := N.
Abbreviation TAnimObjects := (gset N).
Abbreviation TObjectProperties := (gset N).

Definition MapPlane : TObject := 0%N.
Definition Position : TProperty := 0%N.
Definition Scale : TProperty := 1%N.
Definition Angle : TProperty := 2%N.

Inductive TPropValue :=
  | PropDouble (d : double)
  | PropPoint (p : PointD).

(** ** Builds and assertions

    Modelled from the spec: the [ASSERT] macro of base/assert.hpp, which is
    not among the sources; a failed assertion is fatal in a debug build and
    the macro does nothing in a release build. *)

Inductive BuildMode := Debug | Release.

Inductive Outcome (A : Type) :=
  | Returns (a : A)
  | AssertionFailure.

Arguments Returns {A} a.
Arguments AssertionFailure {A}.

Definition ASSERT {A : Type} (mode : BuildMode) (cond : bool) (rest : Outcome A) : Outcome A :=
  match mode with
  | Debug => if cond then rest else AssertionFailure
  | Release => rest
  end.

Definition returned_or {A : Type} (default : A) (o : Outcome A) : A :=
  match o with
  | Returns a => a
  | AssertionFailure => default
  end.

(** ** Calls on animations

    The calls a function makes on the animations it holds, in order, each
    with the receiver as it was when called. A function that calls into its
    animations returns this list next to its result, so that a call whose
    receiver is destroyed afterwards is still seen. *)

Inductive Call (A : Type) :=
  | CallOnStart (receiver : A)
  | CallOnFinish (receiver : A)
  | CallInterrupt (receiver : A)
  | CallAdvance (receiver : A) (elapsedSeconds : double).

Arguments CallOnStart {A} receiver.
Arguments CallOnFinish {A} receiver.
Arguments CallInterrupt {A} receiver.
Arguments CallAdvance {A} receiver elapsedSeconds.

(** ** Animation *)

Module Animation.

(** Modelled from the spec: the abstract class [Animation] of
    animation_system.h, as the "interface-capability set" the scheduler
    calls: its virtual methods over the state [A] of its subclasses, and the
    two flags the constructor stores. *)
Class Ops (A : Type) := {
  m_couldBeInterrupted : A -> bool;
  m_couldBeMixed : A -> bool;
  OnStart : A -> A;
  OnFinish : A -> A;
  Interrupt : A -> A;
  GetObjects : A -> TAnimObjects;
  HasObject : A -> TObject -> bool;
  GetProperties : A -> TObject -> TObjectProperties;
  HasProperty : A -> TObject -> TProperty -> bool;
  SetMaxDuration : double -> A -> A;
  GetDuration : A -> double;
  IsFinished : A -> bool;
  Advance : double -> A -> A;
  GetProperty : A -> TObject -> TProperty -> TPropValue
}.

Section Mixing.
Context {A : Type} `{Ops A}.

(** Modelled from the spec: the inline getter of the header ("declares
    mixability and interruptibility"). *)
Definition CouldBeInterrupted (self : A) : bool := m_couldBeInterrupted self.

(** [CouldBeMixedWith(TObject, TObjectProperties const &)]; it asserts
    [HasObject(object)]. *)
Definition CouldBeMixedWithProperties (self : A) (object : TObject)
    (properties : TObjectProperties) : bool :=
  if negb (m_couldBeMixed self) then false
  else
    let selfProperties := GetProperties self object in
    let intersection := selfProperties ∩ properties in
    bool_decide (intersection = ∅).

(** The loop of [CouldBeMixedWith(Animation const &)] over the objects of the
    other animation. *)
Fixpoint CouldBeMixedWith_objects (self animation : A) (objects : list TObject) : bool :=
  match objects with
  | [] => true
  | object :: rest =>
      if negb (HasObject self object) then CouldBeMixedWith_objects self animation rest
      else if negb (CouldBeMixedWithProperties self object (GetProperties animation object))
      then false
      else CouldBeMixedWith_objects self animation rest
  end.

Definition CouldBeMixedWith (self animation : A) : bool :=
  if negb (m_couldBeMixed self) || m_couldBeMixed animation then false
  else CouldBeMixedWith_objects self animation (elements (GetObjects animation)).

End Mixing.

(** Animations of two subclasses held through pointers to the base class:
    the state is that of either, and every virtual call goes to the
    subclass of its receiver. *)
#[global] Instance sum_ops {A B : Type} `{Ops A} `{Ops B} : Ops (A + B) := {|
  m_couldBeInterrupted := fun x => match x with inl a => m_couldBeInterrupted a | inr b => m_couldBeInterrupted b end;
  m_couldBeMixed := fun x => match x with inl a => m_couldBeMixed a | inr b => m_couldBeMixed b end;
  OnStart := fun x => match x with inl a => inl (OnStart a) | inr b => inr (OnStart b) end;
  OnFinish := fun x => match x with inl a => inl (OnFinish a) | inr b => inr (OnFinish b) end;
  Interrupt := fun x => match x with inl a => inl (Interrupt a) | inr b => inr (Interrupt b) end;
  GetObjects := fun x => match x with inl a => GetObjects a | inr b => GetObjects b end;
  HasObject := fun x => match x with inl a => HasObject a | inr b => HasObject b end;
  GetProperties := fun x => match x with inl a => GetProperties a | inr b => GetProperties b end;
  HasProperty := fun x => match x with inl a => HasProperty a | inr b => HasProperty b end;
  SetMaxDuration := fun maxDuration x =>
    match x with
    | inl a => inl (SetMaxDuration maxDuration a)
    | inr b => inr (SetMaxDuration maxDuration b)
    end;
  GetDuration := fun x => match x with inl a => GetDuration a | inr b => GetDuration b end;
  IsFinished := fun x => match x with inl a => IsFinished a | inr b => IsFinished b end;
  Advance := fun elapsedSeconds x =>
    match x with
    | inl a => inl (Advance elapsedSeconds a)
    | inr b => inr (Advance elapsedSeconds b)
    end;
  GetProperty := fun x => match x with inl a => GetProperty a | inr b => GetProperty b end
|}.

End Animation.

(** ** FollowAnimation *)

Module FollowAnimation.

Record t := mk {
  m_couldBeInterrupted : bool;
  m_couldBeMixed : bool;
  m_objects : TAnimObjects;
  m_properties : TObjectProperties;
  m_angleInterpolator : option AngleInterpolator.t;
  m_scaleInterpolator : option ScaleInterpolator.t;
  m_positionInterpolator : option PositionInterpolator.t
}.

(** [FollowAnimation()] *)
Definition create_empty : t :=
  mk true false {[MapPlane]} ∅ None None None.

Definition SetMove (startPos endPos : PointD) (convertor : ScreenBase) (f : t) : t :=
  if PointD_neqb startPos endPos then
    mk (m_couldBeInterrupted f) (m_couldBeMixed f) (m_objects f)
       (m_properties f ∪ {[Position]})
       (m_angleInterpolator f) (m_scaleInterpolator f)
       (Some (PositionInterpolator.create startPos endPos convertor))
  else f.

Definition SetRotate (startAngle endAngle : double) (f : t) : t :=
  if neqb startAngle endAngle then
    mk (m_couldBeInterrupted f) (m_couldBeMixed f) (m_objects f)
       (m_properties f ∪ {[Angle]})
       (Some (AngleInterpolator.create startAngle endAngle))
       (m_scaleInterpolator f) (m_positionInterpolator f)
  else f.

Definition SetScale (startScale endScale : double) (f : t) : t :=
  if neqb startScale endScale then
    mk (m_couldBeInterrupted f) (m_couldBeMixed f) (m_objects f)
       (m_properties f ∪ {[Scale]})
       (m_angleInterpolator f)
       (Some (ScaleInterpolator.create startScale endScale))
       (m_positionInterpolator f)
  else f.

(** [FollowAnimation(startPos, endPos, startAngle, endAngle, startScale,
    endScale, convertor)] *)
Definition create (startPos endPos : PointD) (startAngle endAngle startScale endScale : double)
    (convertor : ScreenBase) : t :=
  SetScale startScale endScale
    (SetRotate startAngle endAngle
       (SetMove startPos endPos convertor create_empty)).

(** Modelled from the spec: [GetObjects] and [HasObject] are inline in the
    header; an animation "owns a set of target objects". *)
Definition GetObjects (f : t) : TAnimObjects := m_objects f.

Definition HasObject (f : t) (object : TObject) : bool :=
  bool_decide (object ∈ m_objects f).

(** It asserts [object == Animation::MapPlane]. *)
Definition GetProperties (f : t) (object : TObject) : TObjectProperties :=
  m_properties f.

Definition HasProperty (f : t) (object : TObject) (property : TProperty) : bool :=
  HasObject f object && bool_decide (property ∈ m_properties f).

Definition Advance (elapsedSeconds : double) (f : t) : t :=
  mk (m_couldBeInterrupted f) (m_couldBeMixed f) (m_objects f) (m_properties f)
     (AngleInterpolator.Advance elapsedSeconds <$> m_angleInterpolator f)
     (ScaleInterpolator.Advance elapsedSeconds <$> m_scaleInterpolator f)
     (PositionInterpolator.Advance elapsedSeconds <$> m_positionInterpolator f).

Definition SetMaxDuration (maxDuration : double) (f : t) : t :=
  mk (m_couldBeInterrupted f) (m_couldBeMixed f) (m_objects f) (m_properties f)
     (AngleInterpolator.SetMaxDuration maxDuration <$> m_angleInterpolator f)
     (ScaleInterpolator.SetMaxDuration maxDuration <$> m_scaleInterpolator f)
     (PositionInterpolator.SetMaxDuration maxDuration <$> m_positionInterpolator f).

Definition GetDuration (f : t) : double :=
  let duration := 0 in
  let duration :=
    match m_angleInterpolator f with
    | Some a => Interpolator.GetDuration (AngleInterpolator.base a)
    | None => duration
    end in
  let duration :=
    match m_scaleInterpolator f with
    | Some s => std_max duration (Interpolator.GetDuration (ScaleInterpolator.base s))
    | None => duration
    end in
  match m_positionInterpolator f with
  | Some p => std_max duration (Interpolator.GetDuration (PositionInterpolator.base p))
  | None => duration
  end.

Definition IsFinished (f : t) : bool :=
  match m_angleInterpolator f with
  | None => true
  | Some a => Interpolator.IsFinished (AngleInterpolator.base a)
  end
  && match m_scaleInterpolator f with
     | None => true
     | Some s => Interpolator.IsFinished (ScaleInterpolator.base s)
     end
  && match m_positionInterpolator f with
     | None => true
     | Some p => Interpolator.IsFinished (PositionInterpolator.base p)
     end.

(** [GetProperty] in a build of the given mode: each [ASSERT] of the source
    is in its place, and a case whose interpolator is null breaks out of the
    switch to the final [return 0.0]. *)
Definition GetProperty (mode : BuildMode) (f : t) (object : TObject) (property : TProperty)
    : Outcome TPropValue :=
  ASSERT mode (object =? MapPlane)%N
    (if (property =? Position)%N then
       ASSERT mode (bool_decide (is_Some (m_positionInterpolator f)))
         match m_positionInterpolator f with
         | Some p => Returns (PropPoint (PositionInterpolator.GetPosition p))
         | None => Returns (PropDouble 0)
         end
     else if (property =? Scale)%N then
       ASSERT mode (bool_decide (is_Some (m_scaleInterpolator f)))
         match m_scaleInterpolator f with
         | Some s => Returns (PropDouble (ScaleInterpolator.GetScale s))
         | None => Returns (PropDouble 0)
         end
     else if (property =? Angle)%N then
       ASSERT mode (bool_decide (is_Some (m_angleInterpolator f)))
         match m_angleInterpolator f with
         | Some a => Returns (PropDouble (AngleInterpolator.GetAngle a))
         | None => Returns (PropDouble 0)
         end
     else
       ASSERT mode false (Returns (PropDouble 0))).

(** The subclass as an [Animation] of a release build. [OnStart], [OnFinish]
    and [Interrupt] are not overridden in the source: they are those of the
    base class, which do nothing. *)
#[global] Instance ops : Animation.Ops t := {|
  Animation.m_couldBeInterrupted := m_couldBeInterrupted;
  Animation.m_couldBeMixed := m_couldBeMixed;
  Animation.OnStart := fun f => f;
  Animation.OnFinish := fun f => f;
  Animation.Interrupt := fun f => f;
  Animation.GetObjects := GetObjects;
  Animation.HasObject := HasObject;
  Animation.GetProperties := GetProperties;
  Animation.HasProperty := HasProperty;
  Animation.SetMaxDuration := SetMaxDuration;
  Animation.GetDuration := GetDuration;
  Animation.IsFinished := IsFinished;
  Animation.Advance := Advance;
  Animation.GetProperty :=
    fun f object property => returned_or (PropDouble 0) (GetProperty Release f object property)
|}.

End FollowAnimation.

(** ** SequenceAnimation *)

Module SequenceAnimation.

Section Members.
Context {A : Type} `{Animation.Ops A}.

Record t := mk {
  m_couldBeInterrupted : bool;
  m_couldBeMixed : bool;
  m_animations : list A
}.

(** The four queries delegate to the front member and assert that there
    is one; [front()] of an empty deque has no defined result ([None]). *)
Definition GetObjects (s : t) : option TAnimObjects :=
  Animation.GetObjects <$> head (m_animations s).

Definition HasObject (s : t) (object : TObject) : option bool :=
  (fun front => Animation.HasObject front object) <$> head (m_animations s).

Definition GetProperties (s : t) (object : TObject) : option TObjectProperties :=
  (fun front => Animation.GetProperties front object) <$> head (m_animations s).

Definition HasProperty (s : t) (object : TObject) (property : TProperty) : option bool :=
  (fun front => Animation.HasProperty front object property) <$> head (m_animations s).

Definition AddAnimation (animation : A) (s : t) : t :=
  mk (m_couldBeInterrupted s) (m_couldBeMixed s) (m_animations s ++ [animation]).

Definition OnStart (s : t) : t * list (Call A) :=
  match m_animations s with
  | [] => (s, [])
  | front :: rest =>
      (mk (m_couldBeInterrupted s) (m_couldBeMixed s) (Animation.OnStart front :: rest),
       [CallOnStart front])
  end.

Definition OnFinish (s : t) : t := s.

Definition Advance (elapsedSeconds : double) (s : t) : t * list (Call A) :=
  match m_animations s with
  | [] => (s, [])
  | front :: rest =>
      let front1 := Animation.Advance elapsedSeconds front in
      if Animation.IsFinished front1 then
        (* OnFinish on the front, then pop_front *)
        (mk (m_couldBeInterrupted s) (m_couldBeMixed s) rest,
         [CallAdvance front elapsedSeconds; CallOnFinish front1])
      else
        (mk (m_couldBeInterrupted s) (m_couldBeMixed s) (front1 :: rest),
         [CallAdvance front elapsedSeconds])
  end.

End Members.

Arguments t A : clear implicits.

End SequenceAnimation.

(** ** ParallelAnimation *)

Module ParallelAnimation.

Section Members.
Context {A : Type} `{Animation.Ops A}.

Record t := mk {
  m_couldBeInterrupted : bool;
  m_couldBeMixed : bool;
  m_objects : TAnimObjects;
  m_properties : gmap TObject TObjectProperties;
  m_animations : list A
}.

(** Modelled from the spec: [HasObject] is inline in the header; the
    container holds the union of the object sets of its members. *)
Definition HasObject (p : t) (object : TObject) : bool :=
  bool_decide (object ∈ m_objects p).

(** [m_properties.find(object)->second]; it asserts [HasObject(object)].
    For an object that is not a key the iterator is [end()], and reading
    through it has no defined result ([None]). *)
Definition GetProperties (p : t) (object : TObject) : option TObjectProperties :=
  m_properties p !! object.

Definition HasProperty (p : t) (object : TObject) (property : TProperty) : option bool :=
  if negb (HasObject p object) then Some false
  else
    (fun properties : TObjectProperties => bool_decide (property ∈ properties))
      <$> GetProperties p object.

(** [m_properties[object]] makes an empty set for an object that is not yet
    a key. *)
Definition AddAnimation (animation : A) (p : t) : t :=
  let objects := Animation.GetObjects animation in
  mk (m_couldBeInterrupted p) (m_couldBeMixed p)
     (m_objects p ∪ objects)
     (foldl (fun all object =>
               let properties := Animation.GetProperties animation object in
               <[object := default ∅ (all !! object) ∪ properties]> all)
            (m_properties p) (elements objects))
     (m_animations p ++ [animation]).

Definition OnStart (p : t) : t * list (Call A) :=
  (mk (m_couldBeInterrupted p) (m_couldBeMixed p) (m_objects p) (m_properties p)
      (Animation.OnStart <$> m_animations p),
   CallOnStart <$> m_animations p).

Definition OnFinish (p : t) : t := p.

(** The loop of [Advance] over the members. *)
Fixpoint Advance_members (elapsedSeconds : double) (animations : list A)
    : list A * list (Call A) :=
  match animations with
  | [] => ([], [])
  | anim :: rest =>
      let anim1 := Animation.Advance elapsedSeconds anim in
      let '(rest1, calls) := Advance_members elapsedSeconds rest in
      if Animation.IsFinished anim1 then
        (* OnFinish, then m_animations.erase(iter) *)
        (rest1, CallAdvance anim elapsedSeconds :: CallOnFinish anim1 :: calls)
      else
        (anim1 :: rest1, CallAdvance anim elapsedSeconds :: calls)
  end.

Definition Advance (elapsedSeconds : double) (p : t) : t * list (Call A) :=
  let '(animations, calls) := Advance_members elapsedSeconds (m_animations p) in
  (mk (m_couldBeInterrupted p) (m_couldBeMixed p) (m_objects p) (m_properties p) animations,
   calls).

(** Every object of the container is a key of its property map, so that
    [GetProperties] is defined on the objects the container has. *)
Definition Keyed (p : t) : Prop :=
  forall object : TObject, object ∈ m_objects p -> is_Some (m_properties p !! object).

End Members.

Arguments t A : clear implicits.

End ParallelAnimation.

(** ** AnimationSystem *)

Module AnimationSystem.

Section Scheduler.
Context {A : Type} `{Animation.Ops A}.

(** [m_animationChain] is the list of groups ([TAnimationList]), the head
    first; [m_propertyCache] maps (object, property) to a value. The
    members of a group are animations of any subclass: [A] is the type of
    their states (a sum, see [Animation.sum_ops], when several subclasses
    are queued). *)
Record t := mk {
  m_animationChain : list (list A);
  m_propertyCache : gmap (TObject * TProperty) TPropValue
}.

(** [AnimationSystem()] *)
Definition create : t := mk [] ∅.

Definition SaveAnimationResult (animation : A)
    (cache : gmap (TObject * TProperty) TPropValue) : gmap (TObject * TProperty) TPropValue :=
  foldl (fun cache object =>
           foldl (fun cache property =>
                    <[(object, property) := Animation.GetProperty animation object property]> cache)
                 cache (elements (Animation.GetProperties animation object)))
        cache (elements (Animation.GetObjects animation)).

Definition AnimationExists (object : TObject) (s : t) : bool :=
  match m_animationChain s with
  | [] => false
  | front :: _ =>
      if existsb (fun anim => Animation.HasObject anim object) front then true
      else existsb (fun entry => (entry.1.1 =? object)%N) (map_to_list (m_propertyCache s))
  end.

(** The inner loop of [AddAnimation] over one group [lst]: whether the
    group takes the animation ([couldBeMixed]), the group as the loop leaves
    it, the cache, and the calls made. *)
Fixpoint AddAnimation_group (animation : A) (force : bool) (lst : list A)
    (cache : gmap (TObject * TProperty) TPropValue)
    : bool * list A * gmap (TObject * TProperty) TPropValue * list (Call A) :=
  match lst with
  | [] => (true, [], cache, [])
  | anim :: rest =>
      if negb (Animation.CouldBeMixedWith anim animation) then
        if negb force || negb (Animation.CouldBeInterrupted anim) then
          (false, anim :: rest, cache, [])
        else
          (* Interrupt, SaveAnimationResult, then lst.erase(it) *)
          let anim1 := Animation.Interrupt anim in
          let '(couldBeMixed, rest1, cache1, calls) :=
            AddAnimation_group animation force rest (SaveAnimationResult anim1 cache) in
          (couldBeMixed, rest1, cache1, CallInterrupt anim :: calls)
      else
        let '(couldBeMixed, rest1, cache1, calls) :=
          AddAnimation_group animation force rest cache in
        (couldBeMixed, anim :: rest1, cache1, calls)
  end.

(** The outer loop of [AddAnimation] over the groups of the chain: whether a
    group took the animation (the function returned from inside the loop),
    the chain, the cache, and the calls made. *)
Fixpoint AddAnimation_chain (animation : A) (force : bool) (chain : list (list A))
    (cache : gmap (TObject * TProperty) TPropValue)
    : bool * list (list A) * gmap (TObject * TProperty) TPropValue * list (Call A) :=
  match chain with
  | [] => (false, [], cache, [])
  | lst :: rest =>
      let '(couldBeMixed, lst1, cache1, calls) :=
        AddAnimation_group animation force lst cache in
      if couldBeMixed then
        ((true, (lst1 ++ [Animation.OnStart animation]) :: rest, cache1),
         calls ++ [CallOnStart animation])
      else
        let '(added, rest1, cache2, calls1) :=
          AddAnimation_chain animation force rest cache1 in
        (added, lst1 :: rest1, cache2, calls ++ calls1)
  end.

Definition PushAnimation (animation : A) (s : t) : t * list (Call A) :=
  let list := [Animation.OnStart animation] in
  (mk (m_animationChain s ++ [list]) (m_propertyCache s), [CallOnStart animation]).

Definition AddAnimation (animation : A) (force : bool) (s : t) : t * list (Call A) :=
  let '(added, chain, cache, calls) :=
    AddAnimation_chain animation force (m_animationChain s) (m_propertyCache s) in
  if added then (mk chain cache, calls)
  else
    let '(s1, calls1) := PushAnimation animation (mk chain cache) in
    (s1, calls ++ calls1).

(** The loop of [Advance] over the head group. *)
Fixpoint Advance_frontList (elapsedSeconds : double) (frontList : list A)
    (cache : gmap (TObject * TProperty) TPropValue)
    : list A * gmap (TObject * TProperty) TPropValue * list (Call A) :=
  match frontList with
  | [] => ([], cache, [])
  | anim :: rest =>
      let anim1 := Animation.Advance elapsedSeconds anim in
      if Animation.IsFinished anim1 then
        (* OnFinish, SaveAnimationResult, then frontList.erase(it) *)
        let anim2 := Animation.OnFinish anim1 in
        let '(rest1, cache1, calls) :=
          Advance_frontList elapsedSeconds rest (SaveAnimationResult anim2 cache) in
        (rest1, cache1, CallAdvance anim elapsedSeconds :: CallOnFinish anim1 :: calls)
      else
        let '(rest1, cache1, calls) := Advance_frontList elapsedSeconds rest cache in
        (anim1 :: rest1, cache1, CallAdvance anim elapsedSeconds :: calls)
  end.

Definition Advance (elapsedSeconds : double) (s : t) : t * list (Call A) :=
  match m_animationChain s with
  | [] => (s, [])
  | frontList :: rest =>
      let '(frontList1, cache, calls) :=
        Advance_frontList elapsedSeconds frontList (m_propertyCache s) in
      (mk (frontList1 :: rest) cache, calls)
  end.

(** A sequence of [Advance] calls, one per frame. *)
Fixpoint Advance_all (frames : list double) (s : t) : t * list (Call A) :=
  match frames with
  | [] => (s, [])
  | elapsedSeconds :: later =>
      let '(s1, calls) := Advance elapsedSeconds s in
      let '(s2, calls1) := Advance_all later s1 in
      (s2, calls ++ calls1)
  end.

(** [GetProperty] is const but erases from the cache, so the system is
    returned next to the value. *)
Definition GetProperty (object : TObject) (property : TProperty) (current : TPropValue)
    (s : t) : TPropValue * t :=
  let found :=
    match m_animationChain s with
    | [] => None
    | front :: _ => find (fun anim => Animation.HasProperty anim object property) front
    end in
  match found with
  | Some anim => (Animation.GetProperty anim object property, s)
  | None =>
      match m_propertyCache s !! (object, property) with
      | Some value =>
          (value, mk (m_animationChain s) (delete (object, property) (m_propertyCache s)))
      | None => (current, s)
      end
  end.

(** [GetRect]. Modelled from the spec: the screen accessors and the
    rectangles of geometry/ are not among the sources. [GetScale], [GetAngle]
    and [GlobalZero] read the current scale, angle and position of the
    screen, and [OrientedRect] stands for the tail of the function: the pixel
    rectangle of the screen, centred, scaled by [scale], and turned into the
    rectangle at [pos] rotated by [angle]. [boost::get] of a value of the
    other type throws ([None]), and the calls after it are not made. *)
Section GetRect.
Variable GetScale GetAngle : ScreenBase -> double.
Variable GlobalZero : ScreenBase -> PointD.
Variable AnyRectD : Type.
Variable OrientedRect : ScreenBase -> PointD -> double -> double -> AnyRectD.

Definition get_double (value : TPropValue) : option double :=
  match value with
  | PropDouble d => Some d
  | PropPoint _ => None
  end.

Definition get_PointD (value : TPropValue) : option PointD :=
  match value with
  | PropPoint p => Some p
  | PropDouble _ => None
  end.

Definition GetRect (currentScreen : ScreenBase) (s : t) : option AnyRectD * t :=
  let obj := MapPlane in
  let '(value, s1) := GetProperty obj Scale (PropDouble (GetScale currentScreen)) s in
  match get_double value with
  | None => (None, s1)
  | Some scale =>
      let '(value, s2) := GetProperty obj Angle (PropDouble (GetAngle currentScreen)) s1 in
      match get_double value with
      | None => (None, s2)
      | Some angle =>
          let '(value, s3) :=
            GetProperty obj Position (PropPoint (GlobalZero currentScreen)) s2 in
          match get_PointD value with
          | None => (None, s3)
          | Some pos => (Some (OrientedRect currentScreen pos angle scale), s3)
          end
      end
  end.

End GetRect.

End Scheduler.

Arguments t A : clear implicits.

End AnimationSystem.

(** ** A plain animation

    The smallest subclass of [Animation]: it drives the properties it
    declares on one object with a single interpolated double, and takes both
    flags from its constructor. It stands for the caller-defined animations
    the scheduler is given. *)

Module PlainAnimation.

Record t := mk {
  m_couldBeInterrupted : bool;
  m_couldBeMixed : bool;
  m_object : TObject;
  m_properties : TObjectProperties;
  m_interpolator : Interpolator.t;
  m_startValue : double;
  m_endValue : double
}.

Definition create (couldBeInterrupted couldBeMixed : bool) (object : TObject)
    (properties : list TProperty) (duration startValue endValue : double) : t :=
  mk couldBeInterrupted couldBeMixed object (list_to_set properties)
     (Interpolator.create duration 0) startValue endValue.

Definition HasObject (a : t) (object : TObject) : bool :=
  (object =? m_object a)%N.

Definition GetProperties (a : t) (object : TObject) : TObjectProperties :=
  if HasObject a object then m_properties a else ∅.

Definition with_interpolator (i : Interpolator.t) (a : t) : t :=
  mk (m_couldBeInterrupted a) (m_couldBeMixed a) (m_object a) (m_properties a)
     i (m_startValue a) (m_endValue a).

#[global] Instance ops : Animation.Ops t := {|
  Animation.m_couldBeInterrupted := m_couldBeInterrupted;
  Animation.m_couldBeMixed := m_couldBeMixed;
  Animation.OnStart := fun a => a;
  Animation.OnFinish := fun a => a;
  Animation.Interrupt := fun a => a;
  Animation.GetObjects := fun a => {[m_object a]};
  Animation.HasObject := HasObject;
  Animation.GetProperties := GetProperties;
  Animation.HasProperty :=
    fun a object property => HasObject a object && bool_decide (property ∈ m_properties a);
  Animation.SetMaxDuration :=
    fun maxDuration a =>
      with_interpolator (Interpolator.SetMaxDuration maxDuration (m_interpolator a)) a;
  Animation.GetDuration := fun a => Interpolator.GetDuration (m_interpolator a);
  Animation.IsFinished := fun a => Interpolator.IsFinished (m_interpolator a);
  Animation.Advance :=
    fun elapsedSeconds a =>
      with_interpolator (Interpolator.Advance elapsedSeconds (m_interpolator a)) a;
  Animation.GetProperty :=
    fun a object property =>
      PropDouble (InterpolateDouble (m_startValue a) (m_endValue a)
                    (Interpolator.GetT (m_interpolator a)))
|}.

End PlainAnimation.

(** ** Example animations *)

Module Examples.

Definition screen : ScreenBase := mkScreenBase 640 480 (fun p => p).

Definition origin : PointD := mkPointD 0 0.

(** A follow animation that only rotates, one that only zooms and one that
    only moves. *)
Definition rotate : FollowAnimation.t :=
  FollowAnimation.create origin origin 0 1 1 1 screen.

Definition zoom : FollowAnimation.t :=
  FollowAnimation.create origin origin 0 0 1 2 screen.

Definition move : FollowAnimation.t :=
  FollowAnimation.create origin (mkPointD 10 0) 0 0 1 1 screen.

(** Two mixable animations on two different objects. *)
Definition mixable_a : PlainAnimation.t :=
  PlainAnimation.create true true 0%N [Position] 1 0 10.

Definition mixable_b : PlainAnimation.t :=
  PlainAnimation.create true true 1%N [Position] 1 0 10.

(** Two mixable animations of the map plane, one that can be interrupted
    and one that cannot, and a newcomer that declares the properties of
    both. *)
Definition interruptible : PlainAnimation.t :=
  PlainAnimation.create true true MapPlane [Position] 1 3 4.

Definition pinned : PlainAnimation.t :=
  PlainAnimation.create false true MapPlane [Scale] 1 1 2.

Definition newcomer : PlainAnimation.t :=
  PlainAnimation.create true false MapPlane [Position; Scale] 1 0 1.

End Examples.

(** ** Predicates and drivers used in the statements *)

(** The sign of a binary64 value is not set ([nan] has none). *)
Definition sf_not_neg (x : spec_float) : bool :=
  match x with
  | S754_zero s | S754_infinity s | S754_finite s _ _ => negb s
  | S754_nan => true
  end.

(** A follow animation declares the map plane, and a property exactly when
    it has the interpolator of that property. *)
Definition FollowAnimation_Consistent (f : FollowAnimation.t) : Prop :=
  FollowAnimation.m_objects f = {[MapPlane]} /\
  forall property : TProperty,
    property ∈ FollowAnimation.m_properties f <->
    (property = Position /\ is_Some (FollowAnimation.m_positionInterpolator f)) \/
    (property = Scale /\ is_Some (FollowAnimation.m_scaleInterpolator f)) \/
    (property = Angle /\ is_Some (FollowAnimation.m_angleInterpolator f)).

(** An interpolator as its constructor without delay leaves it, with a
    duration that is a number. *)
Definition Interpolator_Fresh (i : Interpolator.t) : Prop :=
  Interpolator.m_elapsedTime i = 0 /\ Interpolator.m_delay i = 0 /\
  is_nan (Interpolator.m_duration i) = false.


(** A number of frames of the same length on a sequence. *)
Fixpoint SequenceAnimation_Advance_frames {A : Type} `{Animation.Ops A}
    (frames : nat) (elapsedSeconds : double) (s : SequenceAnimation.t A)
    : SequenceAnimation.t A :=
  match frames with
  | O => s
  | S frames =>
      SequenceAnimation_Advance_frames frames elapsedSeconds
        (SequenceAnimation.Advance elapsedSeconds s).1
  end.

(** * Theorems *)

(** ** Facts on binary64 arithmetic

    The comparisons and the division of the kernel's floats are specified
    by [SFcompare] and [SFdiv] on [spec_float]; the lemmas below are read off
    these specifications. *)

Section Binary64.

Lemma pos_compare_cont_antisym (p q : positive) :
  PosDef.Pos.compare_cont Eq q p = CompOpp (PosDef.Pos.compare_cont Eq p q).
Proof. symmetry. exact (Pos.compare_cont_antisym p q Eq). Qed.

Lemma pos_compare_cont_eq (p q : positive) :
  PosDef.Pos.compare_cont Eq p q = Eq -> p = q.
Proof. exact (Pos.compare_eq p q). Qed.

Lemma z_compare_antisym (n m : Z) :
  IntDef.Z.compare m n = CompOpp (IntDef.Z.compare n m).
Proof. exact (Z.compare_antisym n m). Qed.

Lemma z_compare_eq (n m : Z) : IntDef.Z.compare n m = Eq -> n = m.
Proof. exact (Z.compare_eq n m). Qed.

Lemma SFcompare_antisym (x y : spec_float) :
  SFcompare y x = option_map CompOpp (SFcompare x y).
Proof.
  destruct x as [sx|sx| |sx mx ex], y as [sy|sy| |sy my ey]; simpl;
    try reflexivity; try (destruct sx; reflexivity); try (destruct sy; reflexivity);
    try (destruct sx, sy; reflexivity).
  destruct sx, sy; simpl; try reflexivity; f_equal;
    rewrite (z_compare_antisym ex ey); destruct (IntDef.Z.compare ex ey); simpl;
    try reflexivity; rewrite (pos_compare_cont_antisym mx my);
    destruct (PosDef.Pos.compare_cont Eq mx my); reflexivity.
Qed.

Lemma SFltb_asym (x y : spec_float) : SFltb x y = true -> SFltb y x = false.
Proof.
  unfold SFltb. rewrite (SFcompare_antisym x y).
  destruct (SFcompare x y) as [[]|]; simpl; congruence.
Qed.

Lemma SFcompare_finite_Eq sx mx ex sy my ey :
  SFcompare (S754_finite sx mx ex) (S754_finite sy my ey) = Some Eq ->
  S754_finite sx mx ex = S754_finite sy my ey.
Proof.
  simpl. destruct sx, sy; try discriminate;
    destruct (IntDef.Z.compare ex ey) eqn:He; try discriminate;
    apply z_compare_eq in He; intros [= Hm].
  - destruct (PosDef.Pos.compare_cont Eq mx my) eqn:Hp; try discriminate.
    apply pos_compare_cont_eq in Hp. congruence.
  - apply pos_compare_cont_eq in Hm. congruence.
Qed.

(** Two floats that are numerically equal or unordered have the same
    quotient in both directions: they are the same float, or both zero, or
    the same infinity, or one of them is [nan]. *)
Lemma SFdiv_unordered_or_equal (x y : spec_float) :
  SFltb x y = false -> SFltb y x = false -> SF64div x y = SF64div y x.
Proof.
  unfold SFltb. rewrite (SFcompare_antisym x y).
  destruct x as [sx|sx| |sx mx ex], y as [sy|sy| |sy my ey];
    try reflexivity;
    try (destruct sx; simpl; congruence);
    try (destruct sy; simpl; congruence); try (destruct sx, sy; simpl; congruence).
  pose proof (SFcompare_finite_Eq sx mx ex sy my ey) as E.
  destruct (SFcompare (S754_finite sx mx ex) (S754_finite sy my ey)) as [[]|] eqn:Hc;
    simpl; try discriminate.
  intros _ _. specialize (E eq_refl). injection E as -> -> ->. reflexivity.
Qed.

Lemma ltb_asym (a b : float) : (a <? b) = true -> (b <? a) = false.
Proof. rewrite !ltb_spec. apply SFltb_asym. Qed.

Lemma div_unordered_or_equal (a b : float) :
  (a <? b) = false -> (b <? a) = false -> a / b = b / a.
Proof.
  rewrite !ltb_spec. intros H1 H2. apply Prim2SF_inj.
  rewrite !div_spec. now apply SFdiv_unordered_or_equal.
Qed.






End Binary64.

(** ** ScaleInterpolator.GetScaleDuration *)

(** "Resize 2.0 times should be done for 0.3 seconds": the comment of the
    source holds of the code to the last bit. *)
Example GetScaleDuration_double : ScaleInterpolator.GetScaleDuration 1 2 = 0.3.
Proof. reflexivity. Qed.

Lemma GetScaleDuration_comm (a b : double) :
  ScaleInterpolator.GetScaleDuration a b = ScaleInterpolator.GetScaleDuration b a.
Proof.
  unfold ScaleInterpolator.GetScaleDuration, gtb.
  destruct (b <? a) eqn:Hba.
  - rewrite (ltb_asym _ _ Hba). reflexivity.
  - destruct (a <? b) eqn:Hab; [reflexivity|].
    now rewrite (div_unordered_or_equal a b).
Qed.

Lemma GetScaleDuration_ratio_one (s : double) :
  s / s = 1 -> ScaleInterpolator.GetScaleDuration s s = 0.15.
Proof.
  intros Hs. unfold ScaleInterpolator.GetScaleDuration, gtb.
  destruct (s <? s); rewrite Hs; reflexivity.
Qed.

(** C3, as the code has it: the duration is symmetric in its two scales,
    and for a scale [s] whose ratio to itself is 1 (every finite non-zero
    scale) [GetScaleDuration s s] is 1 / (2.0 / 0.3), about 0.15 and not 0:
    the ratio 1 is passed to [CalcAnimSpeedDuration] as the distance, and
    only a distance below 1e-5 gives the duration 0. *)
Theorem GetScaleDuration_symmetric_and_ratio_based :
  (forall a b : double,
     ScaleInterpolator.GetScaleDuration a b = ScaleInterpolator.GetScaleDuration b a) /\
  (forall s : double, s / s = 1 ->
     ScaleInterpolator.GetScaleDuration s s = 1 / ScaleInterpolator.kPixelSpeed /\
     (ScaleInterpolator.GetScaleDuration s s =? 0) = false).
Proof.
  split; [exact GetScaleDuration_comm|].
  intros s Hs. rewrite (GetScaleDuration_ratio_one s Hs). split; reflexivity.
Qed.

Lemma GetScaleDuration_symmetric_and_ratio_based_witness :
  ScaleInterpolator.GetScaleDuration 3 1.5 = ScaleInterpolator.GetScaleDuration 1.5 3 /\
  4 / 4 = 1 /\
  ScaleInterpolator.GetScaleDuration 4 4 = 1 / ScaleInterpolator.kPixelSpeed /\
  (ScaleInterpolator.GetScaleDuration 4 4 =? 0) = false.
Proof.
  destruct GetScaleDuration_symmetric_and_ratio_based as [Hsym Hone].
  split; [exact (Hsym 3 1.5)|].
  split; [reflexivity|].
  exact (Hone 4 eq_refl).
Defined.

(** C3 as stated fails: the duration between a scale and itself is not 0. *)
Lemma GetScaleDuration_same_scale_not_zero :
  (ScaleInterpolator.GetScaleDuration 1 1 =? 0) = false /\
  ScaleInterpolator.GetScaleDuration 1 1 <> 0.
Proof.
  split; [reflexivity|].
  intros H.
  assert (E : (ScaleInterpolator.GetScaleDuration 1 1 =? 0) = true)
    by (rewrite H; reflexivity).
  vm_compute in E. discriminate E.
Qed.

(** ** Interpolator.GetT *)









(** ** The property cache *)

Section Cache.
Context {A : Type} `{Animation.Ops A}.

Implicit Types (cache : gmap (TObject * TProperty) TPropValue) (animation : A).

(** Writing the values [f property] of one object. *)
Lemma save_object_lookup (f : TProperty -> TPropValue) (object : TObject)
    (properties : list TProperty) cache (o : TObject) (q : TProperty) :
  foldl (fun cache property => <[(object, property) := f property]> cache) cache properties
    !! (o, q)
  = if decide (o = object /\ q ∈ properties) then Some (f q) else cache !! (o, q).
Proof.
  revert cache. induction properties as [|p ps IH]; intros cache; simpl.
  - destruct (decide (o = object /\ q ∈ [])) as [[_ Hin]|_]; [|reflexivity].
    by apply not_elem_of_nil in Hin.
  - rewrite IH. clear IH.
    destruct (decide (o = object /\ q ∈ ps)) as [[Ho Hin]|Hn];
      destruct (decide (o = object /\ q ∈ p :: ps)) as [[Ho' Hin']|Hn'];
      try reflexivity.
    + exfalso. apply Hn'. split; [exact Ho | by right].
    + apply elem_of_cons in Hin' as [->| Hin']; [|exfalso; by apply Hn].
      subst o. by rewrite lookup_insert_eq.
    + rewrite lookup_insert_ne; [reflexivity|].
      intros [= <- <-]. apply Hn'. split; [reflexivity | by left].
Qed.

Lemma save_objects_lookup animation (objects : list TObject) cache
    (o : TObject) (q : TProperty) :
  foldl (fun cache object =>
           foldl (fun cache property =>
                    <[(object, property) := Animation.GetProperty animation object property]> cache)
                 cache (elements (Animation.GetProperties animation object)))
        cache objects !! (o, q)
  = if decide (o ∈ objects /\ q ∈ Animation.GetProperties animation o)
    then Some (Animation.GetProperty animation o q)
    else cache !! (o, q).
Proof.
  revert cache. induction objects as [|o' os IH]; intros cache; simpl.
  - destruct (decide (o ∈ [] /\ q ∈ Animation.GetProperties animation o))
      as [[Hin _]|_]; [|reflexivity].
    by apply not_elem_of_nil in Hin.
  - rewrite IH, (save_object_lookup (Animation.GetProperty animation o')). clear IH.
    destruct (decide (o ∈ os /\ q ∈ Animation.GetProperties animation o)) as [[Ho Hq]|Hn];
      destruct (decide (o ∈ o' :: os /\ q ∈ Animation.GetProperties animation o))
        as [[Ho' Hq']|Hn']; try reflexivity.
    + exfalso. apply Hn'. split; [by right | exact Hq].
    + apply elem_of_cons in Ho' as [->|Ho']; [|exfalso; by apply Hn].
      rewrite decide_True; [reflexivity|]. split; [reflexivity | by apply elem_of_elements].
    + rewrite decide_False; [reflexivity|].
      intros [-> Hq%elem_of_elements]. apply Hn'. split; [by left | exact Hq].
Qed.

Lemma SaveAnimationResult_lookup animation cache (o : TObject) (q : TProperty) :
  AnimationSystem.SaveAnimationResult animation cache !! (o, q)
  = if decide (o ∈ Animation.GetObjects animation /\
               q ∈ Animation.GetProperties animation o)
    then Some (Animation.GetProperty animation o q)
    else cache !! (o, q).
Proof.
  unfold AnimationSystem.SaveAnimationResult. rewrite save_objects_lookup.
  destruct (decide (o ∈ elements (Animation.GetObjects animation) /\
                    q ∈ Animation.GetProperties animation o)) as [[Ho Hq]|Hn].
  - rewrite decide_True; [reflexivity|]. split; [by apply elem_of_elements | exact Hq].
  - rewrite decide_False; [reflexivity|]. intros [Ho Hq]. apply Hn.
    split; [by apply elem_of_elements | exact Hq].
Qed.

(** After [SaveAnimationResult], every declared (object, property) pair
    holds the animation's value. *)
Lemma SaveAnimationResult_declared animation cache (object : TObject) (property : TProperty) :
  object ∈ Animation.GetObjects animation ->
  property ∈ Animation.GetProperties animation object ->
  AnimationSystem.SaveAnimationResult animation cache !! (object, property)
  = Some (Animation.GetProperty animation object property).
Proof.
  intros Ho Hp. rewrite SaveAnimationResult_lookup. by rewrite decide_True.
Qed.

(** [SaveAnimationResult] writes entries and erases none. *)
Lemma SaveAnimationResult_keeps animation cache (key : TObject * TProperty) :
  is_Some (cache !! key) ->
  is_Some (AnimationSystem.SaveAnimationResult animation cache !! key).
Proof.
  intros Hk. destruct key as [o q]. rewrite SaveAnimationResult_lookup.
  destruct (decide _); [by eexists | exact Hk].
Qed.

End Cache.

(** ** AnimationSystem.AddAnimation *)

Section AddAnimation.
Context {A : Type} `{Animation.Ops A}.

Implicit Types (cache : gmap (TObject * TProperty) TPropValue).

(** A mixable animation is never mixed into: the test on the flag of the
    incoming animation is not negated. *)
Lemma CouldBeMixedWith_mixable_incoming (self animation : A) :
  Animation.m_couldBeMixed animation = true ->
  Animation.CouldBeMixedWith self animation = false.
Proof.
  intros Hb. unfold Animation.CouldBeMixedWith. now rewrite Hb, orb_true_r.
Qed.

(** A group that rejects the animation is passed over: the animation is
    added to the rest of the chain, and the group stays as its scan left
    it. *)
Lemma AddAnimation_rejecting_group (animation : A) (force : bool) (lst lst1 : list A)
    (rest : list (list A)) cache cache1 (calls : list (Call A)) :
  AnimationSystem.AddAnimation_group animation force lst cache = (false, lst1, cache1, calls) ->
  AnimationSystem.AddAnimation animation force (AnimationSystem.mk (lst :: rest) cache)
  = (AnimationSystem.mk
       (lst1 :: AnimationSystem.m_animationChain
                  (AnimationSystem.AddAnimation animation force
                     (AnimationSystem.mk rest cache1)).1)
       (AnimationSystem.m_propertyCache
          (AnimationSystem.AddAnimation animation force (AnimationSystem.mk rest cache1)).1),
     calls ++ (AnimationSystem.AddAnimation animation force (AnimationSystem.mk rest cache1)).2).
Proof.
  intros Hg. unfold AnimationSystem.AddAnimation. simpl. rewrite Hg.
  destruct (AnimationSystem.AddAnimation_chain animation force rest cache1)
    as [[[added rest1] cache2] calls1].
  destruct added; simpl; [reflexivity|].
  now rewrite app_assoc.
Qed.





Lemma AddAnimation_empty_chain (animation : A) (force : bool) cache :
  AnimationSystem.AddAnimation animation force (AnimationSystem.mk [] cache)
  = (AnimationSystem.mk [[Animation.OnStart animation]] cache, [CallOnStart animation]).
Proof. reflexivity. Qed.

End AddAnimation.

Section AddAnimationClaims.
Context {A : Type} `{Animation.Ops A}.

Implicit Types (cache : gmap (TObject * TProperty) TPropValue).

(** C1, on the code: when the second animation [b] is mixable, whatever the
    objects of the two, [a] and [b] land in two groups, and an [Advance]
    ticks [a] alone: the second group is as it was and no call is made on
    [b]. *)
Theorem AddAnimation_mixable_pair_in_two_groups (a b : A) (dt : double) :
  Animation.m_couldBeMixed b = true ->
  let s1 := (AnimationSystem.AddAnimation a false AnimationSystem.create).1 in
  let s2 := (AnimationSystem.AddAnimation b false s1).1 in
  let a1 := Animation.Advance dt (Animation.OnStart a) in
  AnimationSystem.m_animationChain s2 = [[Animation.OnStart a]; [Animation.OnStart b]] /\
  AnimationSystem.m_animationChain (AnimationSystem.Advance dt s2).1
  = [if Animation.IsFinished a1 then [] else [a1]; [Animation.OnStart b]] /\
  (AnimationSystem.Advance dt s2).2
  = CallAdvance (Animation.OnStart a) dt
      :: (if Animation.IsFinished a1 then [CallOnFinish a1] else []).
Proof.
  intros Hb. cbn zeta.
  unfold AnimationSystem.create. rewrite AddAnimation_empty_chain. simpl.
  rewrite (AddAnimation_rejecting_group b false [Animation.OnStart a]
             [Animation.OnStart a] [] ∅ ∅ []).
  2:{ simpl. now rewrite (CouldBeMixedWith_mixable_incoming _ b Hb). }
  rewrite AddAnimation_empty_chain. simpl.
  split; [reflexivity|].
  unfold AnimationSystem.Advance. simpl.
  destruct (Animation.IsFinished (Animation.Advance dt (Animation.OnStart a)));
    split; reflexivity.
Qed.

(** C6: a group [[D]] whose member can be interrupted and does not mix with
    [C]; a forced [AddAnimation] interrupts [D], saves the values of the
    interrupted [D] for every pair it declares, erases it, starts [C] and
    puts it in that group. *)
Theorem AddAnimation_forced_eviction (D C : A) cache :
  Animation.m_couldBeInterrupted D = true ->
  Animation.CouldBeMixedWith D C = false ->
  let D1 := Animation.Interrupt D in
  AnimationSystem.AddAnimation C true (AnimationSystem.mk [[D]] cache)
  = (AnimationSystem.mk [[Animation.OnStart C]] (AnimationSystem.SaveAnimationResult D1 cache),
     [CallInterrupt D; CallOnStart C]) /\
  (forall (object : TObject) (property : TProperty),
     object ∈ Animation.GetObjects D1 ->
     property ∈ Animation.GetProperties D1 object ->
     AnimationSystem.SaveAnimationResult D1 cache !! (object, property)
     = Some (Animation.GetProperty D1 object property)).
Proof.
  intros Hint Hmix. cbn zeta. split.
  - unfold AnimationSystem.AddAnimation, Animation.CouldBeInterrupted. simpl.
    unfold Animation.CouldBeInterrupted. now rewrite Hmix, Hint.
  - intros object property. apply SaveAnimationResult_declared.
Qed.


End AddAnimationClaims.

Lemma AddAnimation_mixable_pair_in_two_groups_witness :
  Animation.m_couldBeMixed Examples.mixable_a = true /\
  Animation.m_couldBeMixed Examples.mixable_b = true /\
  Animation.GetObjects Examples.mixable_a ## Animation.GetObjects Examples.mixable_b /\
  let s1 := (AnimationSystem.AddAnimation Examples.mixable_a false AnimationSystem.create).1 in
  let s2 := (AnimationSystem.AddAnimation Examples.mixable_b false s1).1 in
  AnimationSystem.m_animationChain s2 = [[Examples.mixable_a]; [Examples.mixable_b]] /\
  AnimationSystem.m_animationChain (AnimationSystem.Advance 0.5 s2).1
  = [[Animation.Advance 0.5 Examples.mixable_a]; [Examples.mixable_b]] /\
  (AnimationSystem.Advance 0.5 s2).2 = [CallAdvance Examples.mixable_a 0.5].
Proof.
  split; [reflexivity|]. split; [reflexivity|]. split; [apply (bool_decide_unpack _); vm_compute; exact I|].
  exact (AddAnimation_mixable_pair_in_two_groups
           Examples.mixable_a Examples.mixable_b 0.5 eq_refl).
Defined.

Lemma AddAnimation_forced_eviction_witness :
  Animation.m_couldBeInterrupted Examples.rotate = true /\
  Animation.CouldBeMixedWith Examples.rotate Examples.zoom = false /\
  AnimationSystem.AddAnimation Examples.zoom true
    (AnimationSystem.mk [[Examples.rotate]] ∅)
  = (AnimationSystem.mk [[Examples.zoom]] {[ (MapPlane, Angle) := PropDouble 0 ]},
     [CallInterrupt Examples.rotate; CallOnStart Examples.zoom]).
Proof.
  assert (Hi : Animation.m_couldBeInterrupted Examples.rotate = true) by reflexivity.
  assert (Hm : Animation.CouldBeMixedWith Examples.rotate Examples.zoom = false)
    by reflexivity.
  split; [exact Hi|]. split; [exact Hm|].
  destruct (AddAnimation_forced_eviction Examples.rotate Examples.zoom ∅ Hi Hm) as [Heq _].
  rewrite Heq. reflexivity.
Defined.


(** ** AnimationSystem.Advance *)

Section Advance.
Context {A : Type} `{Animation.Ops A}.

Implicit Types (cache : gmap (TObject * TProperty) TPropValue).

(** Every call of the loop is made on a member of the group it is given. *)
Lemma Advance_frontList_calls (dt : double) (frontList : list A) cache :
  Forall (fun call => exists anim, anim ∈ frontList /\
            (call = CallAdvance anim dt \/
             call = CallOnFinish (Animation.Advance dt anim)))
         (AnimationSystem.Advance_frontList dt frontList cache).2.
Proof.
  revert cache. induction frontList as [|anim rest IH]; intros cache; simpl.
  - constructor.
  - assert (W : forall calls : list (Call A),
      Forall (fun call => exists anim, anim ∈ rest /\
                (call = CallAdvance anim dt \/
                 call = CallOnFinish (Animation.Advance dt anim))) calls ->
      Forall (fun call => exists anim0, anim0 ∈ anim :: rest /\
                (call = CallAdvance anim0 dt \/
                 call = CallOnFinish (Animation.Advance dt anim0))) calls).
    { intros calls Hf. eapply Forall_impl; [exact Hf|]. intros call (x & Hx & Hc).
      exists x. split; [by right | exact Hc]. }
    destruct (Animation.IsFinished (Animation.Advance dt anim)).
    + specialize (IH (AnimationSystem.SaveAnimationResult
                        (Animation.OnFinish (Animation.Advance dt anim)) cache)).
      destruct (AnimationSystem.Advance_frontList dt rest _) as [[rest1 cache1] calls].
      simpl in *. constructor; [|constructor; [|by apply W]].
      * exists anim. split; [by left | by left].
      * exists anim. split; [by left | by right].
    + specialize (IH cache).
      destruct (AnimationSystem.Advance_frontList dt rest cache) as [[rest1 cache1] calls].
      simpl in *. constructor; [|by apply W].
      exists anim. split; [by left | by left].
Qed.

(** C7: [Advance] leaves every group after the head as it is and calls
    only members of the head group; and with an empty head group any
    sequence of [Advance] calls leaves the whole system as it is, the empty
    group still first, and makes no call. *)
Theorem Advance_head_group_only :
  (forall (dt : double) (s : AnimationSystem.t A),
     tail (AnimationSystem.m_animationChain (AnimationSystem.Advance dt s).1)
     = tail (AnimationSystem.m_animationChain s) /\
     Forall (fun call => exists anim,
               anim ∈ default [] (head (AnimationSystem.m_animationChain s)) /\
               (call = CallAdvance anim dt \/
                call = CallOnFinish (Animation.Advance dt anim)))
            (AnimationSystem.Advance dt s).2) /\
  (forall (frames : list double) (rest : list (list A)) cache,
     AnimationSystem.Advance_all frames (AnimationSystem.mk ([] :: rest) cache)
     = (AnimationSystem.mk ([] :: rest) cache, [])).
Proof.
  split.
  - intros dt [chain cache]. unfold AnimationSystem.Advance. simpl.
    destruct chain as [|frontList rest]; simpl; [split; [reflexivity | constructor]|].
    pose proof (Advance_frontList_calls dt frontList cache) as Hc.
    destruct (AnimationSystem.Advance_frontList dt frontList cache)
      as [[frontList1 cache1] calls].
    split; [reflexivity | exact Hc].
  - intros frames rest cache. induction frames as [|dt frames IH]; [reflexivity|].
    simpl. rewrite IH. reflexivity.
Qed.

End Advance.

(** A forced addition over two subclasses: the plain newcomer evicts the
    rotating follow animation of the map plane and takes its group. *)
Example AddAnimation_over_two_subclasses :
  AnimationSystem.AddAnimation (inr Examples.newcomer) true
    (AnimationSystem.mk [[inl Examples.rotate]] ∅)
  = (AnimationSystem.mk [[inr Examples.newcomer]] {[ (MapPlane, Angle) := PropDouble 0 ]},
     [CallInterrupt (inl Examples.rotate); CallOnStart (inr Examples.newcomer)]).
Proof. reflexivity. Qed.

(** A head group that empties: the rotation finishes on the first frame and
    its angle goes to the cache; the move queued behind it is not ticked on
    that frame nor on any later one. *)
Example Advance_leaves_queued_group :
  let s0 := (AnimationSystem.AddAnimation Examples.move false
               (AnimationSystem.AddAnimation Examples.rotate false
                  AnimationSystem.create).1).1 in
  let s1 := (AnimationSystem.Advance 1 s0).1 in
  AnimationSystem.m_animationChain s0 = [[Examples.rotate]; [Examples.move]] /\
  s1 = AnimationSystem.mk [[]; [Examples.move]] {[ (MapPlane, Angle) := PropDouble 1 ]} /\
  AnimationSystem.Advance_all [1; 1; 1] s1 = (s1, []).
Proof. repeat split; reflexivity. Qed.

(** ** AnimationSystem.AnimationExists and AnimationSystem.GetProperty *)

Section Queries.
Context {A : Type} `{Animation.Ops A}.

Implicit Types (cache : gmap (TObject * TProperty) TPropValue).

(** The scan of the cache finds an entry exactly when one is keyed by the
    object. *)
Lemma cache_scan_spec (object : TObject) cache :
  existsb (fun entry : TObject * TProperty * TPropValue => (entry.1.1 =? object)%N)
          (map_to_list cache) = true
  <-> exists (property : TProperty) (value : TPropValue),
        cache !! (object, property) = Some value.
Proof.
  rewrite existsb_exists. split.
  - intros ([[o p] v] & Hin & Ho). simpl in Ho. apply N.eqb_eq in Ho. subst o.
    apply list_elem_of_In, elem_of_map_to_list in Hin. by exists p, v.
  - intros (p & v & Hl). exists ((object, p), v). split.
    + by apply list_elem_of_In, elem_of_map_to_list.
    + simpl. apply N.eqb_refl.
Qed.

(** With a chain that has a head group, [AnimationExists] is as specified. *)
Lemma AnimationExists_with_head_group (object : TObject) (front : list A)
    (rest : list (list A)) cache :
  AnimationSystem.AnimationExists object (AnimationSystem.mk (front :: rest) cache) = true
  <-> (exists anim, anim ∈ front /\ Animation.HasObject anim object = true) \/
      (exists (property : TProperty) (value : TPropValue),
         cache !! (object, property) = Some value).
Proof.
  unfold AnimationSystem.AnimationExists. simpl.
  destruct (existsb (fun anim => Animation.HasObject anim object) front) eqn:He.
  - split; [|reflexivity]. intros _. left.
    apply existsb_exists in He as (anim & Hin & Ho).
    exists anim. split; [by apply list_elem_of_In | exact Ho].
  - rewrite cache_scan_spec. split; [by right|].
    intros [(anim & Hin & Ho)|Hc]; [|exact Hc].
    assert (existsb (fun anim => Animation.HasObject anim object) front = true) as He'.
    { apply existsb_exists. exists anim. split; [by apply list_elem_of_In | exact Ho]. }
    congruence.
Qed.


Lemma find_is_None (f : A -> bool) (l : list A) :
  find f l = None <-> Forall (fun x => f x = false) l.
Proof.
  induction l as [|x l IH]; simpl.
  - split; [constructor | reflexivity].
  - destruct (f x) eqn:Hx.
    + split; [discriminate|]. intros Hf. apply Forall_cons in Hf as [Hf _]. congruence.
    + rewrite IH. split; [by constructor | by intros [_ ?]%Forall_cons].
Qed.

(** The search of [GetProperty] through the head group. *)
Lemma GetProperty_not_animated (object : TObject) (property : TProperty)
    (current : TPropValue) (s : AnimationSystem.t A) :
  Forall (fun anim => Animation.HasProperty anim object property = false)
         (default [] (head (AnimationSystem.m_animationChain s))) ->
  AnimationSystem.GetProperty object property current s
  = match AnimationSystem.m_propertyCache s !! (object, property) with
    | Some value =>
        (value, AnimationSystem.mk (AnimationSystem.m_animationChain s)
                  (delete (object, property) (AnimationSystem.m_propertyCache s)))
    | None => (current, s)
    end.
Proof.
  intros Hf. unfold AnimationSystem.GetProperty.
  destruct (AnimationSystem.m_animationChain s) as [|front rest]; [reflexivity|].
  simpl in Hf. apply find_is_None in Hf. now rewrite Hf.
Qed.

Lemma GetProperty_animated (object : TObject) (property : TProperty)
    (current : TPropValue) (s : AnimationSystem.t A) :
  ~ Forall (fun anim => Animation.HasProperty anim object property = false)
           (default [] (head (AnimationSystem.m_animationChain s))) ->
  exists anim, (AnimationSystem.GetProperty object property current s).1
               = Animation.GetProperty anim object property.
Proof.
  intros Hn. unfold AnimationSystem.GetProperty.
  destruct (AnimationSystem.m_animationChain s) as [|front rest];
    [exfalso; apply Hn; constructor|].
  simpl in Hn.
  destruct (find (fun anim => Animation.HasProperty anim object property) front)
    as [anim|] eqn:Hfind.
  - by exists anim.
  - exfalso. apply Hn. by apply find_is_None.
Qed.

Lemma TPropValue_other (value : TPropValue) : exists other : TPropValue, other <> value.
Proof.
  destruct value as [d|p].
  - exists (PropPoint (mkPointD 0 0)). discriminate.
  - exists (PropDouble 0). discriminate.
Qed.

(** C5: [GetProperty] gives back the fallback, whatever the fallback is,
    exactly when no animation of the head group has the property and the
    cache has no entry for it, and the system is then as it was; when no
    animation has the property and the cache has a value, that value is
    returned and its entry erased, and the same call again returns the
    fallback. *)
Theorem GetProperty_fallback_and_cache_consumed (s : AnimationSystem.t A)
    (object : TObject) (property : TProperty) :
  let not_animated :=
    Forall (fun anim => Animation.HasProperty anim object property = false)
           (default [] (head (AnimationSystem.m_animationChain s))) in
  ((forall current : TPropValue,
      (AnimationSystem.GetProperty object property current s).1 = current)
   <-> not_animated /\ AnimationSystem.m_propertyCache s !! (object, property) = None) /\
  (forall current : TPropValue,
     not_animated -> AnimationSystem.m_propertyCache s !! (object, property) = None ->
     AnimationSystem.GetProperty object property current s = (current, s)) /\
  (forall value current : TPropValue,
     not_animated ->
     AnimationSystem.m_propertyCache s !! (object, property) = Some value ->
     let s1 := AnimationSystem.mk (AnimationSystem.m_animationChain s)
                 (delete (object, property) (AnimationSystem.m_propertyCache s)) in
     AnimationSystem.GetProperty object property current s = (value, s1) /\
     AnimationSystem.m_propertyCache s1 !! (object, property) = None /\
     AnimationSystem.GetProperty object property current s1 = (current, s1)).
Proof.
  cbn zeta. split; [split|split].
  - intros Hall.
    destruct (decide (Forall (fun anim => Animation.HasProperty anim object property = false)
                        (default [] (head (AnimationSystem.m_animationChain s)))))
      as [Hf|Hn].
    + split; [exact Hf|].
      destruct (AnimationSystem.m_propertyCache s !! (object, property)) as [value|] eqn:Hc;
        [|reflexivity].
      destruct (TPropValue_other value) as [other Hother].
      specialize (Hall other). rewrite (GetProperty_not_animated _ _ _ _ Hf), Hc in Hall.
      simpl in Hall. congruence.
    + exfalso.
      destruct (GetProperty_animated object property (PropDouble 0) s Hn) as [anim Ha].
      destruct (TPropValue_other (Animation.GetProperty anim object property))
        as [other Hother].
      destruct (GetProperty_animated object property other s Hn) as [anim' Ha'].
      pose proof (Hall other) as Ho. pose proof (Hall (PropDouble 0)) as Hz.
      assert (Hsame : (AnimationSystem.GetProperty object property other s).1
                      = (AnimationSystem.GetProperty object property (PropDouble 0) s).1).
      { unfold AnimationSystem.GetProperty.
        destruct (AnimationSystem.m_animationChain s) as [|front rest];
          [exfalso; apply Hn; constructor|].
        simpl in Hn.
        destruct (find (fun anim => Animation.HasProperty anim object property) front)
          eqn:Hfind; [reflexivity|].
        exfalso. apply Hn. by apply find_is_None. }
      congruence.
  - intros [Hf Hc] current. now rewrite (GetProperty_not_animated _ _ _ _ Hf), Hc.
  - intros current Hf Hc. now rewrite (GetProperty_not_animated _ _ _ _ Hf), Hc.
  - intros value current Hf Hc.
    split; [now rewrite (GetProperty_not_animated _ _ _ _ Hf), Hc|].
    split; [apply lookup_delete_eq|].
    rewrite GetProperty_not_animated by exact Hf.
    simpl. now rewrite lookup_delete_eq.
Qed.

End Queries.


Lemma GetProperty_fallback_and_cache_consumed_witness :
  let s := AnimationSystem.mk [[Examples.rotate]] {[ (MapPlane, Scale) := PropDouble 2 ]} in
  let s1 := AnimationSystem.mk [[Examples.rotate]] ∅ in
  AnimationSystem.GetProperty MapPlane Scale (PropDouble 1) s = (PropDouble 2, s1) /\
  AnimationSystem.GetProperty MapPlane Scale (PropDouble 1) s1 = (PropDouble 1, s1) /\
  AnimationSystem.GetProperty MapPlane Position (PropPoint Examples.origin) s
  = (PropPoint Examples.origin, s).
Proof.
  cbn zeta.
  pose (s := AnimationSystem.mk [[Examples.rotate]]
               ({[ (MapPlane, Scale) := PropDouble 2 ]}
                  : gmap (TObject * TProperty) TPropValue)).
  assert (Hscale : Forall (fun anim : FollowAnimation.t =>
                             Animation.HasProperty anim MapPlane Scale = false)
                          (default [] (head (AnimationSystem.m_animationChain s))))
    by (repeat constructor).
  assert (Hpos : Forall (fun anim : FollowAnimation.t =>
                           Animation.HasProperty anim MapPlane Position = false)
                        (default [] (head (AnimationSystem.m_animationChain s))))
    by (repeat constructor).
  destruct (GetProperty_fallback_and_cache_consumed s MapPlane Scale) as (_ & _ & Hcached).
  destruct (Hcached (PropDouble 2) (PropDouble 1) Hscale eq_refl) as (Hfirst & _ & Hsecond).
  destruct (GetProperty_fallback_and_cache_consumed s MapPlane Position) as (_ & Hmiss & _).
  split; [exact Hfirst|]. split; [exact Hsecond|].
  exact (Hmiss (PropPoint Examples.origin) Hpos eq_refl).
Defined.

(** ** FollowAnimation.GetProperty *)

(** C8: reading a property of the map plane whose interpolator is absent
    fails the assertion in a debug build and returns the double 0.0 in a
    release build; and a follow animation constructed with equal start and
    end scales has no scale interpolator, so reading its scale does so. *)
Theorem FollowAnimation_GetProperty_absent_interpolator :
  (forall (f : FollowAnimation.t) (property : TProperty),
     (property = Position /\ FollowAnimation.m_positionInterpolator f = None) \/
     (property = Scale /\ FollowAnimation.m_scaleInterpolator f = None) \/
     (property = Angle /\ FollowAnimation.m_angleInterpolator f = None) ->
     FollowAnimation.GetProperty Debug f MapPlane property = AssertionFailure /\
     FollowAnimation.GetProperty Release f MapPlane property = Returns (PropDouble 0)) /\
  (forall (startPos endPos : PointD) (startAngle endAngle startScale endScale : double)
          (convertor : ScreenBase),
     (startScale =? endScale) = true ->
     let f := FollowAnimation.create startPos endPos startAngle endAngle
                startScale endScale convertor in
     FollowAnimation.m_scaleInterpolator f = None /\
     FollowAnimation.GetProperty Debug f MapPlane Scale = AssertionFailure /\
     FollowAnimation.GetProperty Release f MapPlane Scale = Returns (PropDouble 0)).
Proof.
  assert (Habsent : forall (f : FollowAnimation.t) (property : TProperty),
     (property = Position /\ FollowAnimation.m_positionInterpolator f = None) \/
     (property = Scale /\ FollowAnimation.m_scaleInterpolator f = None) \/
     (property = Angle /\ FollowAnimation.m_angleInterpolator f = None) ->
     FollowAnimation.GetProperty Debug f MapPlane property = AssertionFailure /\
     FollowAnimation.GetProperty Release f MapPlane property = Returns (PropDouble 0)).
  { intros f property [[-> Hn]|[[-> Hn]|[-> Hn]]];
      unfold FollowAnimation.GetProperty; simpl; rewrite Hn; split; reflexivity. }
  split; [exact Habsent|].
  intros startPos endPos startAngle endAngle startScale endScale convertor Heq f.
  assert (Hnone : FollowAnimation.m_scaleInterpolator f = None).
  { unfold f, FollowAnimation.create, FollowAnimation.SetScale, neqb. rewrite Heq. simpl.
    unfold FollowAnimation.SetRotate, FollowAnimation.SetMove.
    destruct (neqb startAngle endAngle); simpl;
      destruct (PointD_neqb startPos endPos); reflexivity. }
  split; [exact Hnone|]. apply Habsent. right; left. by split.
Qed.

Lemma FollowAnimation_GetProperty_absent_interpolator_witness :
  (2 =? 2) = true /\
  let f := FollowAnimation.create Examples.origin (mkPointD 10 0) 0 0 2 2 Examples.screen in
  FollowAnimation.m_properties f = {[ Position ]} /\
  FollowAnimation.GetProperty Debug f MapPlane Scale = AssertionFailure /\
  FollowAnimation.GetProperty Release f MapPlane Scale = Returns (PropDouble 0) /\
  FollowAnimation.GetProperty Debug f MapPlane Angle = AssertionFailure /\
  FollowAnimation.GetProperty Release f MapPlane Angle = Returns (PropDouble 0).
Proof.
  split; [reflexivity|]. cbn zeta.
  destruct FollowAnimation_GetProperty_absent_interpolator as [Habsent Hscale].
  destruct (Hscale Examples.origin (mkPointD 10 0) 0 0 2 2 Examples.screen eq_refl)
    as (_ & Hd & Hr).
  split; [reflexivity|]. split; [exact Hd|]. split; [exact Hr|].
  apply Habsent. right; right. split; reflexivity.
Defined.

(** ** SequenceAnimation.Advance *)

Section Sequence.
Context {A : Type} `{Animation.Ops A}.

(** C9: [Advance] on a sequence with a front member ticks that member and
    no other; when the ticked front is finished, [OnFinish] is called on it
    and it is popped, and the next member becomes the front as it was,
    without a call to its [OnStart]. *)
Theorem SequenceAnimation_Advance_front (s : SequenceAnimation.t A) (front : A)
    (rest : list A) (dt : double) :
  SequenceAnimation.m_animations s = front :: rest ->
  let front1 := Animation.Advance dt front in
  let result := SequenceAnimation.Advance dt s in
  (Animation.IsFinished front1 = true ->
     SequenceAnimation.m_animations result.1 = rest /\
     result.2 = [CallAdvance front dt; CallOnFinish front1]) /\
  (Animation.IsFinished front1 = false ->
     SequenceAnimation.m_animations result.1 = front1 :: rest /\
     result.2 = [CallAdvance front dt]) /\
  (forall anim, CallOnStart anim ∉ result.2) /\
  (forall anim elapsed, CallAdvance anim elapsed ∈ result.2 -> anim = front /\ elapsed = dt).
Proof.
  intros Hs. cbn zeta. unfold SequenceAnimation.Advance. rewrite Hs.
  destruct (Animation.IsFinished (Animation.Advance dt front)); simpl;
    (split; [intros; try discriminate; by split|]);
    (split; [intros; try discriminate; by split|]); split.
  - intros anim Hin. repeat (apply elem_of_cons in Hin as [Hin|Hin]; [discriminate|]).
    by apply not_elem_of_nil in Hin.
  - intros anim elapsed Hin.
    apply elem_of_cons in Hin as [[= -> ->]|Hin]; [by split|].
    apply elem_of_cons in Hin as [Hin|Hin]; [discriminate|].
    by apply not_elem_of_nil in Hin.
  - intros anim Hin. repeat (apply elem_of_cons in Hin as [Hin|Hin]; [discriminate|]).
    by apply not_elem_of_nil in Hin.
  - intros anim elapsed Hin.
    apply elem_of_cons in Hin as [[= -> ->]|Hin]; [by split|].
    by apply not_elem_of_nil in Hin.
Qed.

End Sequence.

Lemma SequenceAnimation_Advance_front_witness :
  let s := SequenceAnimation.mk true true [Examples.rotate; Examples.zoom] in
  SequenceAnimation.m_animations s = [Examples.rotate; Examples.zoom] /\
  Animation.IsFinished (Animation.Advance 1 Examples.rotate) = true /\
  SequenceAnimation.m_animations (SequenceAnimation.Advance 1 s).1 = [Examples.zoom] /\
  (SequenceAnimation.Advance 1 s).2
  = [CallAdvance Examples.rotate 1; CallOnFinish (Animation.Advance 1 Examples.rotate)].
Proof.
  cbn zeta.
  assert (Hf : Animation.IsFinished (Animation.Advance 1 Examples.rotate) = true)
    by reflexivity.
  split; [reflexivity|]. split; [exact Hf|].
  destruct (SequenceAnimation_Advance_front
              (SequenceAnimation.mk true true [Examples.rotate; Examples.zoom])
              Examples.rotate [Examples.zoom] 1 eq_refl) as (Hfin & _).
  exact (Hfin Hf).
Defined.

(** * Further properties of the code *)

(** ** More facts on binary64 arithmetic *)

Section Binary64Signs.

Lemma z_sub_diag (n : Z) : IntDef.Z.sub n n = 0%Z.
Proof. exact (Z.sub_diag n). Qed.

Lemma z_sub_antisym (a b : Z) : IntDef.Z.sub a b = IntDef.Z.opp (IntDef.Z.sub b a).
Proof. change (a - b = - (b - a))%Z. lia. Qed.

Lemma z_min_comm (a b : Z) : IntDef.Z.min a b = IntDef.Z.min b a.
Proof. exact (Z.min_comm a b). Qed.

Lemma SFabs_not_neg (x : spec_float) : sf_not_neg (SFabs x) = true.
Proof. by destruct x. Qed.

Lemma binary_round_aux_sign mz ez lz :
  sf_not_neg (binary_round_aux prec emax false mz ez lz) = true.
Proof.
  unfold binary_round_aux.
  destruct (shr_fexp prec emax mz ez lz) as [mrs' e'].
  destruct (shr_fexp prec emax _ e' loc_Exact) as [mrs'' e''].
  destruct (shr_m mrs''); try reflexivity.
  destruct (IntDef.Z.leb e'' _); reflexivity.
Qed.

Lemma SFdiv_sign (x y : spec_float) :
  sf_not_neg x = true -> sf_not_neg y = true -> sf_not_neg (SF64div x y) = true.
Proof.
  destruct x as [sx|sx| |sx mx ex], y as [sy|sy| |sy my ey]; simpl;
    try reflexivity; try (destruct sx, sy; simpl; congruence).
  destruct sx, sy; try discriminate. intros _ _.
  unfold SF64div, SFdiv.
  destruct (SFdiv_core_binary prec emax (Zpos mx) ex (Zpos my) ey) as [[mz ez] lz].
  apply binary_round_aux_sign.
Qed.

Lemma SFmul_sign (x y : spec_float) :
  sf_not_neg x = true -> sf_not_neg y = true -> sf_not_neg (SF64mul x y) = true.
Proof.
  destruct x as [sx|sx| |sx mx ex], y as [sy|sy| |sy my ey]; simpl;
    try reflexivity; try (destruct sx, sy; simpl; congruence).
  destruct sx, sy; try discriminate. intros _ _.
  apply binary_round_aux_sign.
Qed.

Lemma sf_not_neg_ltb (x : spec_float) :
  sf_not_neg x = true -> SFltb x (S754_zero false) = false.
Proof. destruct x as [s|s| |s m e]; try reflexivity; by destruct s. Qed.

Lemma sf_pos_not_neg (x : spec_float) :
  SFltb (S754_zero false) x = true -> sf_not_neg x = true.
Proof. destruct x as [s|s| |s m e]; try discriminate; by destruct s. Qed.

Lemma abs_opp (x : float) : abs (- x) = abs x.
Proof.
  apply Prim2SF_inj. rewrite !abs_spec, opp_spec. by destruct (Prim2SF x).
Qed.

Lemma sub_zero_r (x : float) : x - 0 = x.
Proof.
  apply Prim2SF_inj. rewrite sub_spec.
  change (Prim2SF 0) with (S754_zero false).
  destruct (Prim2SF x) as [s|s| |s m e]; try reflexivity; by destruct s.
Qed.

Lemma SFabs_binary_round (s : bool) (m : positive) (e : Z) :
  SFabs (binary_round prec emax s m e) = SFabs (binary_round prec emax (negb s) m e).
Proof.
  unfold binary_round.
  destruct (shl_align m e _) as [mz ez].
  unfold binary_round_aux.
  destruct (shr_fexp prec emax (Zpos mz) ez loc_Exact) as [mrs' e'].
  destruct (shr_fexp prec emax _ e' loc_Exact) as [mrs'' e''].
  destruct (shr_m mrs''); try reflexivity.
  destruct (IntDef.Z.leb e'' _); reflexivity.
Qed.

Lemma SFabs_binary_normalize_opp (m e : Z) :
  SFabs (binary_normalize prec emax (IntDef.Z.opp m) e false)
  = SFabs (binary_normalize prec emax m e false).
Proof.
  destruct m as [|p|p]; simpl; try reflexivity.
  - apply (SFabs_binary_round true p e).
  - apply (SFabs_binary_round false p e).
Qed.

Lemma SFabs_SFsub_comm (x y : spec_float) : SFabs (SF64sub x y) = SFabs (SF64sub y x).
Proof.
  destruct x as [sx|sx| |sx mx ex], y as [sy|sy| |sy my ey];
    try reflexivity; try (destruct sx, sy; reflexivity).
  unfold SF64sub, SFsub.
  rewrite (z_min_comm ey ex), (z_sub_antisym (cond_Zopp sy _) (cond_Zopp sx _)).
  symmetry. apply SFabs_binary_normalize_opp.
Qed.

(** The distance of two floats does not depend on their order. *)
Lemma abs_sub_comm (x y : float) : abs (x - y) = abs (y - x).
Proof. apply Prim2SF_inj. rewrite !abs_spec, !sub_spec. apply SFabs_SFsub_comm. Qed.

Lemma is_finite_spec (x : float) :
  is_finite x = true ->
  (exists s, Prim2SF x = S754_zero s) \/ (exists s m e, Prim2SF x = S754_finite s m e).
Proof.
  unfold is_finite, is_nan, is_infinity. rewrite !FloatAxioms.eqb_spec, abs_spec.
  change (Prim2SF infinity) with (S754_infinity false).
  destruct (Prim2SF x) as [s|s| |s m e]; intros Hf.
  - left. by eexists.
  - by destruct s.
  - discriminate.
  - right. by do 3 eexists.
Qed.

(** A finite float minus itself is +0. *)
Lemma sub_diag_finite (x : float) : is_finite x = true -> x - x = 0.
Proof.
  intros Hf. apply Prim2SF_inj. rewrite sub_spec.
  change (Prim2SF 0) with (S754_zero false).
  destruct (is_finite_spec x Hf) as [[s ->]|(s & m & e & ->)].
  - by destruct s.
  - unfold SF64sub, SFsub. by rewrite z_sub_diag.
Qed.

Lemma SFcompare_None (x y : spec_float) :
  SFcompare x y = None -> x = S754_nan \/ y = S754_nan.
Proof.
  destruct x as [sx|sx| |sx mx ex], y as [sy|sy| |sy my ey]; simpl; try discriminate; auto.
Qed.

(** Among numbers, "not above" is "below or equal". *)
Lemma not_ltb_leb (x y : float) :
  is_nan x = false -> is_nan y = false -> (y <? x) = false -> (x <=? y) = true.
Proof.
  unfold is_nan.
  rewrite !FloatAxioms.eqb_spec, FloatAxioms.ltb_spec, FloatAxioms.leb_spec.
  unfold SFeqb, SFltb, SFleb. rewrite (SFcompare_antisym (Prim2SF x) (Prim2SF y)).
  intros Hx Hy.
  destruct (SFcompare (Prim2SF x) (Prim2SF y)) as [[]|] eqn:Hc; simpl; try congruence.
  apply SFcompare_None in Hc as [Hn|Hn]; rewrite Hn in *; simpl in *; discriminate.
Qed.

Lemma ltb_leb (x y : float) : (x <? y) = true -> (x <=? y) = true.
Proof.
  rewrite FloatAxioms.ltb_spec, FloatAxioms.leb_spec. unfold SFltb, SFleb.
  by destruct (SFcompare (Prim2SF x) (Prim2SF y)) as [[]|].
Qed.

Lemma leb_refl (x : float) : is_nan x = false -> (x <=? x) = true.
Proof.
  unfold is_nan. rewrite FloatAxioms.eqb_spec, FloatAxioms.leb_spec. unfold SFeqb, SFleb.
  by destruct (SFcompare (Prim2SF x) (Prim2SF x)) as [[]|].
Qed.

Lemma SFcompare_refl_not_nan (x : spec_float) : x <> S754_nan -> SFcompare x x = Some Eq.
Proof.
  destruct x as [s|s| |s m e]; simpl; try congruence; intros _; try (by destruct s).
  change (IntDef.Z.compare e e) with (Z.compare e e).
  change (PosDef.Pos.compare_cont Eq m m) with (Pos.compare_cont Eq m m).
  rewrite Z.compare_refl, Pos.compare_cont_refl. by destruct s.
Qed.

Lemma ltb_not_nan (x y : float) : (x <? y) = true -> is_nan x = false /\ is_nan y = false.
Proof.
  unfold is_nan. rewrite FloatAxioms.ltb_spec, !FloatAxioms.eqb_spec. unfold SFltb, SFeqb.
  intros Hlt.
  assert (Hx : Prim2SF x <> S754_nan) by (intros E; rewrite E in Hlt; discriminate).
  assert (Hy : Prim2SF y <> S754_nan)
    by (intros E; rewrite E in Hlt; by destruct (Prim2SF x)).
  by rewrite !SFcompare_refl_not_nan.
Qed.

Lemma leb_not_nan (x y : float) : (x <=? y) = true -> is_nan x = false /\ is_nan y = false.
Proof.
  unfold is_nan. rewrite FloatAxioms.leb_spec, !FloatAxioms.eqb_spec. unfold SFleb, SFeqb.
  intros Hle.
  assert (Hx : Prim2SF x <> S754_nan) by (intros E; rewrite E in Hle; discriminate).
  assert (Hy : Prim2SF y <> S754_nan)
    by (intros E; rewrite E in Hle; by destruct (Prim2SF x)).
  by rewrite !SFcompare_refl_not_nan.
Qed.

Lemma std_min_cases (a b : double) : std_min a b = a \/ std_min a b = b.
Proof. unfold std_min. destruct (b <? a); auto. Qed.

Lemma std_max_cases (a b : double) : std_max a b = a \/ std_max a b = b.
Proof. unfold std_max. destruct (a <? b); auto. Qed.

Lemma std_min_leb (a b : double) :
  is_nan a = false -> is_nan b = false ->
  (std_min a b <=? a) = true /\ (std_min a b <=? b) = true.
Proof.
  intros Ha Hb. unfold std_min. destruct (b <? a) eqn:Hlt.
  - split; [by apply ltb_leb | by apply leb_refl].
  - split; [by apply leb_refl | by apply not_ltb_leb].
Qed.

End Binary64Signs.

(** ** Interpolator.SetMaxDuration *)

(** X1: [SetMaxDuration] touches the duration only, and the new duration is
    the old one or the cap. When both are numbers it is at most each of
    them; a cap that is [nan] changes nothing; and capping twice with the
    same cap is capping once. *)
Theorem Interpolator_SetMaxDuration_shrinks (maxDuration : double) (i : Interpolator.t) :
  let j := Interpolator.SetMaxDuration maxDuration i in
  Interpolator.m_elapsedTime j = Interpolator.m_elapsedTime i /\
  Interpolator.m_delay j = Interpolator.m_delay i /\
  (Interpolator.m_duration j = Interpolator.m_duration i \/
   Interpolator.m_duration j = maxDuration) /\
  (is_nan (Interpolator.m_duration i) = false -> is_nan maxDuration = false ->
   (Interpolator.m_duration j <=? Interpolator.m_duration i) = true /\
   (Interpolator.m_duration j <=? maxDuration) = true) /\
  (is_nan maxDuration = true -> j = i) /\
  Interpolator.SetMaxDuration maxDuration j = j.
Proof.
  destruct i as [e d l]. cbn zeta. unfold Interpolator.SetMaxDuration. simpl.
  split; [reflexivity|]. split; [reflexivity|].
  split; [apply std_min_cases|].
  split; [apply std_min_leb|]. split.
  - intros Hn. unfold std_min. destruct (maxDuration <? d) eqn:Hlt; [|reflexivity].
    apply ltb_not_nan in Hlt as [Hc _]. congruence.
  - f_equal. unfold std_min. destruct (maxDuration <? d) eqn:Hlt.
    + destruct (maxDuration <? maxDuration) eqn:Hcc; [|reflexivity].
      by rewrite (ltb_asym _ _ Hcc) in Hcc.
    + by rewrite Hlt.
Qed.

Lemma Interpolator_SetMaxDuration_shrinks_witness :
  let i := Interpolator.create 2 0.5 in
  is_nan (Interpolator.m_duration i) = false /\ is_nan 1.5 = false /\
  (Interpolator.m_duration (Interpolator.SetMaxDuration 1.5 i) <=? 1.5) = true /\
  is_nan nan = true /\
  Interpolator.SetMaxDuration nan i = i.
Proof.
  cbn zeta.
  destruct (Interpolator_SetMaxDuration_shrinks 1.5 (Interpolator.create 2 0.5))
    as (_ & _ & _ & Hle & _).
  destruct (Interpolator_SetMaxDuration_shrinks nan (Interpolator.create 2 0.5))
    as (_ & _ & _ & _ & Hnan & _).
  split; [reflexivity|]. split; [reflexivity|].
  split; [exact (proj2 (Hle eq_refl eq_refl))|].
  split; [reflexivity|]. exact (Hnan eq_refl).
Defined.

(** ** The derived durations *)

Lemma CalcAnimSpeedDuration_sign (pxDiff pxSpeed : double) :
  sf_not_neg (Prim2SF pxSpeed) = true ->
  (CalcAnimSpeedDuration pxDiff pxSpeed <? 0) = false.
Proof.
  intros Hs. unfold CalcAnimSpeedDuration.
  destruct (AlmostEqualAbs pxDiff 0 1e-5); [reflexivity|].
  rewrite FloatAxioms.ltb_spec, div_spec, abs_spec.
  change (Prim2SF 0) with (S754_zero false).
  apply sf_not_neg_ltb, SFdiv_sign; [apply SFabs_not_neg | exact Hs].
Qed.

(** X2: [CalcAnimSpeedDuration] depends on the size of the distance, not on
    its sign; it is 0 for a distance below 1e-5 in size; and for a speed
    above 0 it is never below 0. *)
Theorem CalcAnimSpeedDuration_even_and_not_negative (pxDiff pxSpeed : double) :
  CalcAnimSpeedDuration (- pxDiff) pxSpeed = CalcAnimSpeedDuration pxDiff pxSpeed /\
  ((abs pxDiff <? 1e-5) = true -> CalcAnimSpeedDuration pxDiff pxSpeed = 0) /\
  ((0 <? pxSpeed) = true -> (CalcAnimSpeedDuration pxDiff pxSpeed <? 0) = false).
Proof.
  split; [|split].
  - unfold CalcAnimSpeedDuration, AlmostEqualAbs. by rewrite !sub_zero_r, abs_opp.
  - intros Hsmall. unfold CalcAnimSpeedDuration, AlmostEqualAbs.
    by rewrite sub_zero_r, Hsmall.
  - intros Hpos. apply CalcAnimSpeedDuration_sign.
    rewrite FloatAxioms.ltb_spec in Hpos. by apply sf_pos_not_neg.
Qed.

Lemma CalcAnimSpeedDuration_even_and_not_negative_witness :
  CalcAnimSpeedDuration (- 3) 2 = CalcAnimSpeedDuration 3 2 /\
  (abs 1e-6 <? 1e-5) = true /\ CalcAnimSpeedDuration 1e-6 2 = 0 /\
  (0 <? 2) = true /\ (CalcAnimSpeedDuration (- 3) 2 <? 0) = false.
Proof.
  destruct (CalcAnimSpeedDuration_even_and_not_negative 3 2) as (Heven & _ & _).
  destruct (CalcAnimSpeedDuration_even_and_not_negative 1e-6 2) as (_ & Hsmall & _).
  destruct (CalcAnimSpeedDuration_even_and_not_negative (- 3) 2) as (_ & _ & Hpos).
  split; [exact Heven|]. split; [reflexivity|]. split; [exact (Hsmall eq_refl)|].
  split; [reflexivity|]. exact (Hpos eq_refl).
Defined.

(** X3: the duration of a rotation is the same in both directions, is
    never below 0, and is 0 between a finite angle and itself. *)
Theorem GetRotateDuration_symmetric_not_negative :
  (forall startAngle endAngle : double,
     AngleInterpolator.GetRotateDuration startAngle endAngle
     = AngleInterpolator.GetRotateDuration endAngle startAngle) /\
  (forall startAngle endAngle : double,
     (AngleInterpolator.GetRotateDuration startAngle endAngle <? 0) = false) /\
  (forall angle : double, is_finite angle = true ->
     AngleInterpolator.GetRotateDuration angle angle = 0).
Proof.
  split; [|split].
  - intros a b. unfold AngleInterpolator.GetRotateDuration. by rewrite (abs_sub_comm b a).
  - intros a b. unfold AngleInterpolator.GetRotateDuration.
    rewrite FloatAxioms.ltb_spec, div_spec, mul_spec, abs_spec.
    change (Prim2SF 0) with (S754_zero false).
    apply sf_not_neg_ltb, SFdiv_sign; [apply SFmul_sign|];
      [reflexivity | apply SFabs_not_neg | reflexivity].
  - intros a Ha. unfold AngleInterpolator.GetRotateDuration.
    by rewrite (sub_diag_finite a Ha).
Qed.

Lemma GetRotateDuration_symmetric_not_negative_witness :
  is_finite 1.25 = true /\ AngleInterpolator.GetRotateDuration 1.25 1.25 = 0.
Proof.
  destruct GetRotateDuration_symmetric_not_negative as (_ & _ & Hzero).
  split; [reflexivity|]. exact (Hzero 1.25 eq_refl).
Defined.

(** X4: the duration of a scaling is never below 0, whatever the two
    scales. *)
Theorem GetScaleDuration_not_negative (startScale endScale : double) :
  (ScaleInterpolator.GetScaleDuration startScale endScale <? 0) = false.
Proof.
  unfold ScaleInterpolator.GetScaleDuration.
  destruct (gtb startScale endScale); by apply CalcAnimSpeedDuration_sign.
Qed.

Lemma PointD_Length_same (p : PointD) :
  is_finite (pt_x p) = true -> is_finite (pt_y p) = true -> PointD_Length p p = 0.
Proof.
  intros Hx Hy. unfold PointD_Length. by rewrite (sub_diag_finite _ Hx), (sub_diag_finite _ Hy).
Qed.

(** X5: a move between a point and itself takes no time when the point is
    projected to finite pixel coordinates; and on a screen whose pixel
    rectangle has sides above 0 the duration of a move is never below 0. *)
Theorem GetMoveDuration_same_point_and_not_negative
    (startPosition endPosition : PointD) (convertor : ScreenBase) :
  (is_finite (pt_x (GtoP convertor startPosition)) = true ->
   is_finite (pt_y (GtoP convertor startPosition)) = true ->
   PositionInterpolator.GetMoveDuration startPosition startPosition convertor = 0) /\
  ((0 <? PixelRect_SizeX convertor) = true -> (0 <? PixelRect_SizeY convertor) = true ->
   (PositionInterpolator.GetMoveDuration startPosition endPosition convertor <? 0) = false).
Proof.
  split.
  - intros Hx Hy. unfold PositionInterpolator.GetMoveDuration.
    by rewrite (PointD_Length_same _ Hx Hy).
  - intros Hx Hy. unfold PositionInterpolator.GetMoveDuration.
    destruct (_ <? 1e-5); [reflexivity|].
    destruct (_ <? 0.2 * _); [reflexivity|].
    apply CalcAnimSpeedDuration_sign. rewrite mul_spec.
    apply SFmul_sign; [reflexivity|].
    apply sf_pos_not_neg. change (S754_zero false) with (Prim2SF 0).
    rewrite <- FloatAxioms.ltb_spec.
    by destruct (std_min_cases (PixelRect_SizeX convertor) (PixelRect_SizeY convertor))
      as [-> | ->].
Qed.

Lemma GetMoveDuration_same_point_and_not_negative_witness :
  let far := mkPointD 3000 4000 in
  PositionInterpolator.GetMoveDuration Examples.origin Examples.origin Examples.screen = 0 /\
  (0 <? PixelRect_SizeX Examples.screen) = true /\
  (0 <? PixelRect_SizeY Examples.screen) = true /\
  (PositionInterpolator.GetMoveDuration Examples.origin far Examples.screen <? 0) = false.
Proof.
  cbn zeta.
  destruct (GetMoveDuration_same_point_and_not_negative
              Examples.origin (mkPointD 3000 4000) Examples.screen) as [Hsame Hnn].
  split; [exact (Hsame eq_refl eq_refl)|].
  split; [reflexivity|]. split; [reflexivity|]. exact (Hnn eq_refl eq_refl).
Defined.

(** ** FollowAnimation *)

Section FollowAnimationFacts.

Lemma std_max_leb (a b c : double) :
  (a <=? c) = true -> (b <=? c) = true -> (std_max a b <=? c) = true.
Proof. intros Ha Hb. by destruct (std_max_cases a b) as [-> | ->]. Qed.

Lemma std_min_cap_leb (d cap : double) :
  is_nan d = false -> is_nan cap = false -> (std_min d cap <=? cap) = true.
Proof. intros Hd Hc. by apply std_min_leb. Qed.

Lemma create_empty_Consistent : FollowAnimation_Consistent FollowAnimation.create_empty.
Proof.
  split; [reflexivity|]. intros property. simpl. split.
  - intros Hin. by apply not_elem_of_empty in Hin.
  - intros [[_ [x Hx]]|[[_ [x Hx]]|[_ [x Hx]]]]; discriminate.
Qed.

Lemma SetMove_Consistent (startPos endPos : PointD) (convertor : ScreenBase)
    (f : FollowAnimation.t) :
  FollowAnimation_Consistent f ->
  FollowAnimation_Consistent (FollowAnimation.SetMove startPos endPos convertor f).
Proof.
  intros [Ho Hp]. unfold FollowAnimation.SetMove.
  destruct (PointD_neqb startPos endPos); [|by split].
  split; [exact Ho|]. intros property. simpl.
  rewrite elem_of_union, elem_of_singleton, Hp. unfold Position, Scale, Angle.
  split.
  - intros [[[-> ?]|[?|?]]| ->]; eauto.
  - intros [[-> _]|[?|?]]; eauto.
Qed.

Lemma SetRotate_Consistent (startAngle endAngle : double) (f : FollowAnimation.t) :
  FollowAnimation_Consistent f ->
  FollowAnimation_Consistent (FollowAnimation.SetRotate startAngle endAngle f).
Proof.
  intros [Ho Hp]. unfold FollowAnimation.SetRotate.
  destruct (neqb startAngle endAngle); [|by split].
  split; [exact Ho|]. intros property. simpl.
  rewrite elem_of_union, elem_of_singleton, Hp. unfold Position, Scale, Angle.
  split.
  - intros [[?|[?|[-> ?]]]| ->]; eauto 6.
  - intros [?|[?|[-> _]]]; eauto 6.
Qed.

Lemma SetScale_Consistent (startScale endScale : double) (f : FollowAnimation.t) :
  FollowAnimation_Consistent f ->
  FollowAnimation_Consistent (FollowAnimation.SetScale startScale endScale f).
Proof.
  intros [Ho Hp]. unfold FollowAnimation.SetScale.
  destruct (neqb startScale endScale); [|by split].
  split; [exact Ho|]. intros property. simpl.
  rewrite elem_of_union, elem_of_singleton, Hp. unfold Position, Scale, Angle.
  split.
  - intros [[?|[[-> ?]|?]]| ->]; eauto 6.
  - intros [?|[[-> _]|?]]; eauto 6.
Qed.

Lemma create_Consistent (startPos endPos : PointD)
    (startAngle endAngle startScale endScale : double) (convertor : ScreenBase) :
  FollowAnimation_Consistent
    (FollowAnimation.create startPos endPos startAngle endAngle startScale endScale
       convertor).
Proof.
  apply SetScale_Consistent, SetRotate_Consistent, SetMove_Consistent,
    create_empty_Consistent.
Qed.

Lemma fmap_is_Some_iff {X Y : Type} (g : X -> Y) (o : option X) :
  is_Some (g <$> o) <-> is_Some o.
Proof. apply fmap_is_Some. Qed.

End FollowAnimationFacts.

(** X6: a follow animation keeps its declaration in step with its
    interpolators: the constructor declares the map plane and exactly the
    properties whose start and end differ, each with its interpolator, and
    [Advance] and [SetMaxDuration] change neither the declared properties nor
    which interpolators exist. *)
Theorem FollowAnimation_declares_what_it_interpolates :
  (forall (startPos endPos : PointD) (startAngle endAngle startScale endScale : double)
          (convertor : ScreenBase),
     let f := FollowAnimation.create startPos endPos startAngle endAngle
                startScale endScale convertor in
     FollowAnimation_Consistent f /\
     FollowAnimation.HasProperty f MapPlane Position = PointD_neqb startPos endPos /\
     FollowAnimation.HasProperty f MapPlane Scale = neqb startScale endScale /\
     FollowAnimation.HasProperty f MapPlane Angle = neqb startAngle endAngle) /\
  (forall (elapsedSeconds : double) (f : FollowAnimation.t),
     FollowAnimation_Consistent f ->
     FollowAnimation_Consistent (FollowAnimation.Advance elapsedSeconds f) /\
     FollowAnimation.m_properties (FollowAnimation.Advance elapsedSeconds f)
     = FollowAnimation.m_properties f) /\
  (forall (maxDuration : double) (f : FollowAnimation.t),
     FollowAnimation_Consistent f ->
     FollowAnimation_Consistent (FollowAnimation.SetMaxDuration maxDuration f) /\
     FollowAnimation.m_properties (FollowAnimation.SetMaxDuration maxDuration f)
     = FollowAnimation.m_properties f).
Proof.
  split; [|split].
  - intros startPos endPos startAngle endAngle startScale endScale convertor f.
    split.
    + apply create_Consistent.
    + unfold f, FollowAnimation.create, FollowAnimation.SetScale,
        FollowAnimation.SetRotate, FollowAnimation.SetMove.
      destruct (PointD_neqb startPos endPos), (neqb startAngle endAngle),
        (neqb startScale endScale); repeat split; reflexivity.
  - intros dt f [Ho Hp]. split; [|reflexivity]. split; [exact Ho|].
    intros property. simpl. rewrite !fmap_is_Some_iff. apply Hp.
  - intros cap f [Ho Hp]. split; [|reflexivity]. split; [exact Ho|].
    intros property. simpl. rewrite !fmap_is_Some_iff. apply Hp.
Qed.

Lemma FollowAnimation_declares_what_it_interpolates_witness :
  FollowAnimation_Consistent Examples.move /\
  FollowAnimation_Consistent (FollowAnimation.Advance 0.1 Examples.move) /\
  FollowAnimation_Consistent (FollowAnimation.SetMaxDuration 0.1 Examples.move).
Proof.
  destruct FollowAnimation_declares_what_it_interpolates as (Hcreate & Hadv & Hcap).
  destruct (Hcreate Examples.origin (mkPointD 10 0) 0 0 1 1 Examples.screen) as [Hc _].
  split; [exact Hc|].
  split; [exact (proj1 (Hadv 0.1 _ Hc)) | exact (proj1 (Hcap 0.1 _ Hc))].
Defined.

(** X7: on a follow animation that is in step with its interpolators, reading
    a property that [HasProperty] reports passes every assertion: the debug
    and the release build return the same value. *)
Theorem FollowAnimation_GetProperty_declared (f : FollowAnimation.t)
    (object : TObject) (property : TProperty) :
  FollowAnimation_Consistent f ->
  FollowAnimation.HasProperty f object property = true ->
  exists value : TPropValue,
    FollowAnimation.GetProperty Debug f object property = Returns value /\
    FollowAnimation.GetProperty Release f object property = Returns value.
Proof.
  intros [Ho Hp] Hhas. unfold FollowAnimation.HasProperty, FollowAnimation.HasObject in Hhas.
  apply andb_prop in Hhas as [Hobj Hprop].
  apply bool_decide_eq_true in Hobj, Hprop. rewrite Ho in Hobj.
  apply elem_of_singleton in Hobj. subst object.
  apply Hp in Hprop as [[-> [x Hx]]|[[-> [x Hx]]|[-> [x Hx]]]];
    unfold FollowAnimation.GetProperty; simpl; rewrite Hx; simpl; by eexists.
Qed.

Lemma FollowAnimation_GetProperty_declared_witness :
  FollowAnimation.HasProperty Examples.rotate MapPlane Angle = true /\
  exists value : TPropValue,
    FollowAnimation.GetProperty Debug Examples.rotate MapPlane Angle = Returns value /\
    FollowAnimation.GetProperty Release Examples.rotate MapPlane Angle = Returns value.
Proof.
  assert (Hc : FollowAnimation_Consistent Examples.rotate)
    by apply create_Consistent.
  assert (Hh : FollowAnimation.HasProperty Examples.rotate MapPlane Angle = true)
    by reflexivity.
  split; [exact Hh|].
  exact (FollowAnimation_GetProperty_declared Examples.rotate MapPlane Angle Hc Hh).
Defined.

(** X8: [SetMaxDuration] with a cap that is at least 0 brings [GetDuration]
    down to at most the cap, when the durations of the interpolators are
    numbers. *)
Theorem FollowAnimation_SetMaxDuration_caps_GetDuration (maxDuration : double)
    (f : FollowAnimation.t) :
  (0 <=? maxDuration) = true ->
  (forall a, FollowAnimation.m_angleInterpolator f = Some a ->
     is_nan (Interpolator.m_duration (AngleInterpolator.base a)) = false) ->
  (forall s, FollowAnimation.m_scaleInterpolator f = Some s ->
     is_nan (Interpolator.m_duration (ScaleInterpolator.base s)) = false) ->
  (forall p, FollowAnimation.m_positionInterpolator f = Some p ->
     is_nan (Interpolator.m_duration (PositionInterpolator.base p)) = false) ->
  (FollowAnimation.GetDuration (FollowAnimation.SetMaxDuration maxDuration f)
     <=? maxDuration) = true.
Proof.
  intros Hcap Ha Hs Hp.
  pose proof (leb_not_nan _ _ Hcap) as [_ Hn].
  destruct f as [ci cm objs props [a|] [s|] [p|]];
    unfold FollowAnimation.GetDuration; simpl;
    repeat apply std_max_leb; try exact Hcap;
    apply std_min_cap_leb; try exact Hn;
    first [by apply Ha | by apply Hs | by apply Hp].
Qed.

Lemma FollowAnimation_SetMaxDuration_caps_GetDuration_witness :
  let f := FollowAnimation.create Examples.origin (mkPointD 10 0) 0 1 1 2 Examples.screen in
  (0.25 <? FollowAnimation.GetDuration f) = true /\
  (0 <=? 0.25) = true /\
  (FollowAnimation.GetDuration (FollowAnimation.SetMaxDuration 0.25 f) <=? 0.25) = true.
Proof.
  cbn zeta. split; [reflexivity|]. split; [reflexivity|].
  apply (FollowAnimation_SetMaxDuration_caps_GetDuration 0.25); [reflexivity|..];
    intros x [= <-]; reflexivity.
Defined.

(** X9: a follow animation whose start and end agree in position, angle and
    scale has no interpolator and declares nothing; it is finished before
    any tick, its duration is 0, and the scheduler erases it from the head
    group on the next [Advance], whatever the elapsed time, without writing
    to the cache. *)
Theorem FollowAnimation_nothing_to_animate
    (startPos endPos : PointD) (startAngle endAngle startScale endScale : double)
    (convertor : ScreenBase) :
  PointD_neqb startPos endPos = false ->
  neqb startAngle endAngle = false ->
  neqb startScale endScale = false ->
  let f := FollowAnimation.create startPos endPos startAngle endAngle
             startScale endScale convertor in
  f = FollowAnimation.create_empty /\
  FollowAnimation.IsFinished f = true /\
  FollowAnimation.GetDuration f = 0 /\
  (forall (elapsedSeconds : double) (rest : list (list FollowAnimation.t))
          (cache : gmap (TObject * TProperty) TPropValue),
     AnimationSystem.Advance elapsedSeconds (AnimationSystem.mk ([f] :: rest) cache)
     = (AnimationSystem.mk ([] :: rest) cache,
        [CallAdvance f elapsedSeconds; CallOnFinish f])).
Proof.
  intros Hp Ha Hs f.
  assert (Hf : f = FollowAnimation.create_empty).
  { unfold f, FollowAnimation.create, FollowAnimation.SetScale, FollowAnimation.SetRotate,
      FollowAnimation.SetMove. by rewrite Hp, Ha, Hs. }
  rewrite Hf. repeat split; reflexivity.
Qed.

Lemma FollowAnimation_nothing_to_animate_witness :
  let f := FollowAnimation.create (mkPointD 1 2) (mkPointD 1 2) 0.5 0.5 3 3 Examples.screen in
  PointD_neqb (mkPointD 1 2) (mkPointD 1 2) = false /\
  neqb 0.5 0.5 = false /\ neqb 3 3 = false /\
  FollowAnimation.IsFinished f = true /\
  AnimationSystem.Advance 0 (AnimationSystem.mk [[f]] ∅)
  = (AnimationSystem.mk [[]] ∅, [CallAdvance f 0; CallOnFinish f]).
Proof.
  cbn zeta.
  destruct (FollowAnimation_nothing_to_animate (mkPointD 1 2) (mkPointD 1 2) 0.5 0.5 3 3
              Examples.screen eq_refl eq_refl eq_refl) as (_ & Hfin & _ & Hadv).
  split; [reflexivity|]. split; [reflexivity|]. split; [reflexivity|].
  split; [exact Hfin | exact (Hadv 0 [] ∅)].
Defined.

(** ** ParallelAnimation *)

Section ParallelAnimationFacts.
Context {A : Type} `{Animation.Ops A}.

Lemma add_properties_lookup (P : TObject -> TObjectProperties) (objects : list TObject)
    (all : gmap TObject TObjectProperties) (o : TObject) :
  foldl (fun all object => <[object := default ∅ (all !! object) ∪ P object]> all)
        all objects !! o
  = if decide (o ∈ objects) then Some (default ∅ (all !! o) ∪ P o) else all !! o.
Proof.
  revert all. induction objects as [|o' os IH]; intros all; simpl.
  - destruct (decide (o ∈ [])) as [Hin|_]; [|reflexivity]. by apply not_elem_of_nil in Hin.
  - rewrite IH. clear IH.
    destruct (decide (o = o')) as [->|Hne].
    + rewrite lookup_insert_eq. simpl.
      rewrite (decide_True (P := o' ∈ o' :: os)) by (by left).
      destruct (decide (o' ∈ os)); [|reflexivity].
      f_equal. by rewrite <- (assoc_L (∪)), (idemp_L (∪)).
    + rewrite lookup_insert_ne by congruence.
      destruct (decide (o ∈ os)) as [Hin|Hn].
      * rewrite decide_True; [reflexivity | by right].
      * rewrite decide_False; [reflexivity|].
        intros [->|Hin]%elem_of_cons; [by apply Hne | by apply Hn].
Qed.

Lemma ParallelAnimation_AddAnimation_lookup (animation : A) (p : ParallelAnimation.t A)
    (o : TObject) :
  ParallelAnimation.m_properties (ParallelAnimation.AddAnimation animation p) !! o
  = if decide (o ∈ Animation.GetObjects animation)
    then Some (default ∅ (ParallelAnimation.m_properties p !! o)
               ∪ Animation.GetProperties animation o)
    else ParallelAnimation.m_properties p !! o.
Proof.
  simpl. rewrite (add_properties_lookup (Animation.GetProperties animation)).
  destruct (decide (o ∈ elements (Animation.GetObjects animation))) as [Hin|Hn].
  - rewrite decide_True; [reflexivity | by apply elem_of_elements].
  - rewrite decide_False; [reflexivity|]. intros Hin. by apply Hn, elem_of_elements.
Qed.

Lemma ParallelAnimation_Advance_members_spec (dt : double) (animations : list A) :
  ParallelAnimation.Advance_members dt animations
  = (List.filter (fun anim => negb (Animation.IsFinished anim))
       (Animation.Advance dt <$> animations),
     flat_map (fun anim =>
                 CallAdvance anim dt
                 :: (if Animation.IsFinished (Animation.Advance dt anim)
                     then [CallOnFinish (Animation.Advance dt anim)] else []))
              animations).
Proof.
  induction animations as [|anim rest IH]; simpl; [reflexivity|].
  rewrite IH. by destruct (Animation.IsFinished (Animation.Advance dt anim)).
Qed.

(** X10: [AddAnimation] on a parallel animation appends the member and adds
    its objects and properties to those of the container: afterwards the
    container has every object and every property of the member, it still
    has what it had, and every object it has is a key of its property map if
    that held before. *)
Theorem ParallelAnimation_AddAnimation_declares_member (animation : A)
    (p : ParallelAnimation.t A) :
  let q := ParallelAnimation.AddAnimation animation p in
  ParallelAnimation.m_animations q = ParallelAnimation.m_animations p ++ [animation] /\
  (ParallelAnimation.Keyed p -> ParallelAnimation.Keyed q) /\
  (forall object : TObject,
     ParallelAnimation.HasObject q object
     = ParallelAnimation.HasObject p object
       || bool_decide (object ∈ Animation.GetObjects animation)) /\
  (forall (object : TObject) (property : TProperty),
     object ∈ Animation.GetObjects animation ->
     property ∈ Animation.GetProperties animation object ->
     ParallelAnimation.HasProperty q object property = Some true) /\
  (forall (object : TObject) (property : TProperty),
     ParallelAnimation.HasProperty p object property = Some true ->
     ParallelAnimation.HasProperty q object property = Some true).
Proof.
  cbn zeta.
  assert (Hobj : forall object : TObject,
     ParallelAnimation.HasObject (ParallelAnimation.AddAnimation animation p) object
     = ParallelAnimation.HasObject p object
       || bool_decide (object ∈ Animation.GetObjects animation)).
  { intros object. unfold ParallelAnimation.HasObject. simpl.
    apply eq_true_iff_eq. rewrite orb_true_iff, !bool_decide_eq_true. set_solver. }
  split; [reflexivity|]. split; [|split; [exact Hobj|split]].
  - intros Hk object Hin.
    rewrite ParallelAnimation_AddAnimation_lookup.
    destruct (decide (object ∈ Animation.GetObjects animation)); [by eexists|].
    apply Hk. simpl in Hin. apply elem_of_union in Hin as [Hin|Hin]; done.
  - intros object property Ho Hp. unfold ParallelAnimation.HasProperty.
    rewrite Hobj, (bool_decide_eq_true_2 _ Ho), orb_true_r. simpl.
    unfold ParallelAnimation.GetProperties.
    rewrite ParallelAnimation_AddAnimation_lookup, decide_True by exact Ho.
    simpl. f_equal. apply bool_decide_eq_true. set_solver.
  - intros object property. unfold ParallelAnimation.HasProperty.
    rewrite Hobj. destruct (ParallelAnimation.HasObject p object); simpl; [|discriminate].
    unfold ParallelAnimation.GetProperties.
    rewrite ParallelAnimation_AddAnimation_lookup.
    destruct (ParallelAnimation.m_properties p !! object) as [properties|]; simpl;
      [|discriminate].
    intros [= Hin]. apply bool_decide_eq_true in Hin.
    destruct (decide (object ∈ Animation.GetObjects animation)); simpl.
    + f_equal. apply bool_decide_eq_true. set_solver.
    + f_equal. by apply bool_decide_eq_true.
Qed.

(** X11: [Advance] on a parallel animation ticks every member once, in
    order, calls [OnFinish] on each member that is finished after its tick
    and erases it; the members left are the ticked ones that are not
    finished. The objects and properties of the container stay as they
    were, also those that only erased members had. *)
Theorem ParallelAnimation_Advance_erases_finished (dt : double) (p : ParallelAnimation.t A) :
  let r := ParallelAnimation.Advance dt p in
  ParallelAnimation.m_animations r.1
  = List.filter (fun anim => negb (Animation.IsFinished anim))
      (Animation.Advance dt <$> ParallelAnimation.m_animations p) /\
  r.2 = flat_map (fun anim =>
                    CallAdvance anim dt
                    :: (if Animation.IsFinished (Animation.Advance dt anim)
                        then [CallOnFinish (Animation.Advance dt anim)] else []))
                 (ParallelAnimation.m_animations p) /\
  ParallelAnimation.m_objects r.1 = ParallelAnimation.m_objects p /\
  ParallelAnimation.m_properties r.1 = ParallelAnimation.m_properties p /\
  (forall (object : TObject) (property : TProperty),
     ParallelAnimation.HasProperty r.1 object property
     = ParallelAnimation.HasProperty p object property).
Proof.
  cbn zeta. unfold ParallelAnimation.Advance.
  rewrite ParallelAnimation_Advance_members_spec. simpl. repeat split; reflexivity.
Qed.

End ParallelAnimationFacts.

Example ParallelAnimation_keeps_declaring_erased_member :
  let p := ParallelAnimation.AddAnimation Examples.zoom
             (ParallelAnimation.AddAnimation Examples.rotate
                (ParallelAnimation.mk true true ∅ ∅ [])) in
  let r := ParallelAnimation.Advance 0.5 p in
  ParallelAnimation.m_animations r.1 = [FollowAnimation.Advance 0.5 Examples.rotate] /\
  ParallelAnimation.HasProperty r.1 MapPlane Scale = Some true.
Proof. split; reflexivity. Qed.

(** ** SequenceAnimation *)

Section SequenceAnimationFacts.
Context {A : Type} `{Animation.Ops A}.

Lemma head_app_one (l : list A) (a : A) : head (l ++ [a]) = Some (default a (head l)).
Proof. by destruct l. Qed.

(** X12: [AddAnimation] on a sequence appends at the back. On a sequence
    that has members the front, and with it every query, is as before; on an
    empty sequence, where the queries have no defined result, the added
    animation becomes the front and the queries are its own. *)
Theorem SequenceAnimation_AddAnimation_keeps_front (animation : A)
    (s : SequenceAnimation.t A) :
  let q := SequenceAnimation.AddAnimation animation s in
  (SequenceAnimation.GetObjects s = None <-> SequenceAnimation.m_animations s = []) /\
  (SequenceAnimation.m_animations s <> [] ->
   SequenceAnimation.GetObjects q = SequenceAnimation.GetObjects s /\
   (forall object, SequenceAnimation.HasObject q object
                   = SequenceAnimation.HasObject s object) /\
   (forall object, SequenceAnimation.GetProperties q object
                   = SequenceAnimation.GetProperties s object) /\
   (forall object property, SequenceAnimation.HasProperty q object property
                            = SequenceAnimation.HasProperty s object property)) /\
  (SequenceAnimation.m_animations s = [] ->
   SequenceAnimation.GetObjects q = Some (Animation.GetObjects animation) /\
   (forall object, SequenceAnimation.HasObject q object
                   = Some (Animation.HasObject animation object)) /\
   (forall object, SequenceAnimation.GetProperties q object
                   = Some (Animation.GetProperties animation object)) /\
   (forall object property, SequenceAnimation.HasProperty q object property
                            = Some (Animation.HasProperty animation object property))).
Proof.
  cbn zeta. destruct s as [ci cm members].
  unfold SequenceAnimation.GetObjects, SequenceAnimation.HasObject,
    SequenceAnimation.GetProperties, SequenceAnimation.HasProperty. simpl.
  split; [|split].
  - destruct members; simpl; split; congruence.
  - intros Hne. destruct members as [|front rest]; [congruence|]. repeat split.
  - intros ->. repeat split.
Qed.

Lemma SequenceAnimation_Advance_frames_drop (dt : double) (frames : nat)
    (s : SequenceAnimation.t A) :
  Forall (fun member => Animation.IsFinished (Animation.Advance dt member) = true)
         (SequenceAnimation.m_animations s) ->
  SequenceAnimation.m_animations (SequenceAnimation_Advance_frames frames dt s)
  = drop frames (SequenceAnimation.m_animations s).
Proof.
  revert s. induction frames as [|frames IH]; intros s Hall; simpl; [by rewrite drop_0|].
  destruct s as [ci cm [|front rest]]; simpl in *.
  - rewrite IH by constructor. simpl. by rewrite drop_nil.
  - apply Forall_cons in Hall as [Hfront Hrest].
    unfold SequenceAnimation.Advance. simpl. rewrite Hfront. simpl.
    by rewrite IH.
Qed.

(** X13: a frame takes at most one member off a sequence: the members after
    the front are kept as they are, also when they would be finished by the
    same elapsed time. A sequence whose members are each finished by one
    tick of [dt] therefore loses one member per frame: after [frames] frames
    the first [frames] members are gone. *)
Theorem SequenceAnimation_one_member_per_frame (dt : double) (s : SequenceAnimation.t A) :
  (exists front : list A,
     length front <= 1 /\
     SequenceAnimation.m_animations (SequenceAnimation.Advance dt s).1
     = front ++ tail (SequenceAnimation.m_animations s)) /\
  (Forall (fun member => Animation.IsFinished (Animation.Advance dt member) = true)
          (SequenceAnimation.m_animations s) ->
   forall frames : nat,
     SequenceAnimation.m_animations (SequenceAnimation_Advance_frames frames dt s)
     = drop frames (SequenceAnimation.m_animations s)).
Proof.
  split.
  - destruct s as [ci cm [|front rest]]; unfold SequenceAnimation.Advance; simpl.
    + exists []. split; [simpl; lia | reflexivity].
    + destruct (Animation.IsFinished (Animation.Advance dt front)); simpl.
      * exists []. split; [simpl; lia | reflexivity].
      * exists [Animation.Advance dt front]. split; [simpl; lia | reflexivity].
  - intros Hall frames. by apply SequenceAnimation_Advance_frames_drop.
Qed.

End SequenceAnimationFacts.

Lemma SequenceAnimation_AddAnimation_keeps_front_witness :
  let s := SequenceAnimation.mk true true [Examples.rotate] in
  let e := SequenceAnimation.mk (A := FollowAnimation.t) true true [] in
  SequenceAnimation.m_animations s <> [] /\
  SequenceAnimation.HasProperty (SequenceAnimation.AddAnimation Examples.zoom s)
    MapPlane Scale = Some false /\
  SequenceAnimation.m_animations e = [] /\
  SequenceAnimation.HasProperty e MapPlane Scale = None /\
  SequenceAnimation.HasProperty (SequenceAnimation.AddAnimation Examples.zoom e)
    MapPlane Scale = Some true.
Proof.
  cbn zeta.
  destruct (SequenceAnimation_AddAnimation_keeps_front Examples.zoom
              (SequenceAnimation.mk true true [Examples.rotate])) as (_ & Hkeep & _).
  destruct (SequenceAnimation_AddAnimation_keeps_front Examples.zoom
              (SequenceAnimation.mk (A := FollowAnimation.t) true true []))
    as (_ & _ & Hfirst).
  assert (Hne : SequenceAnimation.m_animations
                  (SequenceAnimation.mk true true [Examples.rotate]) <> [])
    by discriminate.
  destruct (Hkeep Hne) as (_ & _ & _ & Hsame).
  destruct (Hfirst eq_refl) as (_ & _ & _ & Hown).
  split; [exact Hne|].
  split; [rewrite Hsame; reflexivity|].
  split; [reflexivity|]. split; [reflexivity|].
  rewrite Hown. reflexivity.
Defined.

Lemma SequenceAnimation_one_member_per_frame_witness :
  let s := SequenceAnimation.mk true true [Examples.rotate; Examples.zoom; Examples.move] in
  Forall (fun member : FollowAnimation.t =>
            Animation.IsFinished (Animation.Advance 1 member) = true)
         (SequenceAnimation.m_animations s) /\
  SequenceAnimation.m_animations (SequenceAnimation_Advance_frames 1 1 s)
  = [Examples.zoom; Examples.move] /\
  SequenceAnimation.m_animations (SequenceAnimation_Advance_frames 3 1 s) = [].
Proof.
  cbn zeta.
  assert (Hall : Forall (fun member : FollowAnimation.t =>
                           Animation.IsFinished (Animation.Advance 1 member) = true)
                        [Examples.rotate; Examples.zoom; Examples.move])
    by (repeat (apply Forall_cons_2; [reflexivity|]); apply Forall_nil_2).
  destruct (SequenceAnimation_one_member_per_frame 1
              (SequenceAnimation.mk true true
                 [Examples.rotate; Examples.zoom; Examples.move])) as [_ Hdrop].
  split; [exact Hall|].
  split; [exact (Hdrop Hall 1%nat) | exact (Hdrop Hall 3%nat)].
Defined.

Lemma ParallelAnimation_AddAnimation_declares_member_witness :
  let p := ParallelAnimation.mk (A := FollowAnimation.t) true true ∅ ∅ [] in
  let q := ParallelAnimation.AddAnimation Examples.rotate p in
  ParallelAnimation.Keyed q /\
  ParallelAnimation.HasProperty q MapPlane Angle = Some true /\
  ParallelAnimation.HasProperty (ParallelAnimation.AddAnimation Examples.zoom q)
    MapPlane Angle = Some true.
Proof.
  cbn zeta.
  pose (p := ParallelAnimation.mk (A := FollowAnimation.t) true true ∅ ∅ []).
  assert (Hk : ParallelAnimation.Keyed p)
    by (intros object Hin; by apply not_elem_of_empty in Hin).
  assert (Ho : MapPlane ∈ Animation.GetObjects Examples.rotate)
    by (apply (bool_decide_unpack _); vm_compute; exact I).
  assert (Hp : Angle ∈ Animation.GetProperties Examples.rotate MapPlane)
    by (apply (bool_decide_unpack _); vm_compute; exact I).
  destruct (ParallelAnimation_AddAnimation_declares_member Examples.rotate p)
    as (_ & Hkeyed & _ & Hnew & _).
  destruct (ParallelAnimation_AddAnimation_declares_member Examples.zoom
              (ParallelAnimation.AddAnimation Examples.rotate p))
    as (_ & _ & _ & _ & Hold).
  split; [exact (Hkeyed Hk)|].
  split; [exact (Hnew MapPlane Angle Ho Hp)|].
  exact (Hold MapPlane Angle (Hnew MapPlane Angle Ho Hp)).
Defined.

(** ** Animation.CouldBeMixedWith *)

Section MixingFacts.
Context {A : Type} `{Animation.Ops A}.

Lemma CouldBeMixedWith_objects_spec (self animation : A) (objects : list TObject) :
  Animation.m_couldBeMixed self = true ->
  Animation.CouldBeMixedWith_objects self animation objects = true
  <-> forall object : TObject,
        object ∈ objects -> Animation.HasObject self object = true ->
        Animation.GetProperties self object ∩ Animation.GetProperties animation object = ∅.
Proof.
  intros Hself. induction objects as [|o os IH]; simpl.
  - split; [|reflexivity]. intros _ object Hin. by apply not_elem_of_nil in Hin.
  - unfold Animation.CouldBeMixedWithProperties. rewrite Hself. simpl.
    destruct (Animation.HasObject self o) eqn:Hhas; simpl.
    + destruct (bool_decide (Animation.GetProperties self o
                             ∩ Animation.GetProperties animation o = ∅)) eqn:Hd; simpl.
      * apply bool_decide_eq_true in Hd. rewrite IH. split.
        -- intros Hall object [->|Hin]%elem_of_cons Ho; [exact Hd | by apply Hall].
        -- intros Hall object Hin. apply Hall. by right.
      * apply bool_decide_eq_false in Hd. split; [discriminate|].
        intros Hall. exfalso. apply Hd, Hall; [by left | exact Hhas].
    + rewrite IH. split.
      * intros Hall object [->|Hin]%elem_of_cons Ho; [congruence | by apply Hall].
      * intros Hall object Hin. apply Hall. by right.
Qed.

(** X14: an animation of a group mixes with an incoming one exactly when
    it is mixable itself, the incoming one is not, and on every object of
    the incoming animation that it has too their properties are disjoint.
    So mixing is never mutual, and nothing mixes with an animation that
    could be mixed. *)
Theorem CouldBeMixedWith_characterised (self animation : A) :
  (Animation.CouldBeMixedWith self animation = true
   <-> Animation.m_couldBeMixed self = true /\
       Animation.m_couldBeMixed animation = false /\
       forall object : TObject,
         object ∈ Animation.GetObjects animation ->
         Animation.HasObject self object = true ->
         Animation.GetProperties self object ∩ Animation.GetProperties animation object
         = ∅) /\
  (Animation.CouldBeMixedWith self animation = true ->
   Animation.CouldBeMixedWith animation self = false).
Proof.
  assert (Hflags : forall x y : A, Animation.CouldBeMixedWith x y = true ->
            Animation.m_couldBeMixed x = true /\ Animation.m_couldBeMixed y = false).
  { intros x y. unfold Animation.CouldBeMixedWith.
    destruct (Animation.m_couldBeMixed x), (Animation.m_couldBeMixed y); simpl;
      (discriminate || by split). }
  split.
  - split.
    + intros Hmix. destruct (Hflags _ _ Hmix) as [Hs Ha]. split; [exact Hs|].
      split; [exact Ha|]. intros object Hin.
      unfold Animation.CouldBeMixedWith in Hmix. rewrite Hs, Ha in Hmix. simpl in Hmix.
      destruct (CouldBeMixedWith_objects_spec self animation
                  (elements (Animation.GetObjects animation)) Hs) as [Hfwd _].
      apply (Hfwd Hmix). by apply elem_of_elements.
    + intros (Hs & Ha & Hall). unfold Animation.CouldBeMixedWith. rewrite Hs, Ha. simpl.
      destruct (CouldBeMixedWith_objects_spec self animation
                  (elements (Animation.GetObjects animation)) Hs) as [_ Hbwd].
      apply Hbwd. intros object Hin. apply Hall. by apply elem_of_elements.
  - intros Hmix. destruct (Hflags _ _ Hmix) as [Hs Ha].
    unfold Animation.CouldBeMixedWith. by rewrite Ha.
Qed.

End MixingFacts.

Lemma CouldBeMixedWith_characterised_witness :
  Animation.CouldBeMixedWith Examples.mixable_b Examples.newcomer = true /\
  Animation.CouldBeMixedWith Examples.newcomer Examples.mixable_b = false /\
  Animation.m_couldBeMixed Examples.mixable_b = true /\
  Animation.m_couldBeMixed Examples.newcomer = false.
Proof.
  destruct (CouldBeMixedWith_characterised Examples.mixable_b Examples.newcomer)
    as [Hiff Hmutual].
  assert (Hmix : Animation.CouldBeMixedWith Examples.mixable_b Examples.newcomer = true)
    by reflexivity.
  destruct (proj1 Hiff Hmix) as (Hs & Ha & _).
  split; [exact Hmix|]. split; [exact (Hmutual Hmix)|]. by split.
Defined.

(** ** AnimationSystem.AddAnimation without force *)

Section UnforcedAddAnimation.
Context {A : Type} `{Animation.Ops A}.

Implicit Types (cache : gmap (TObject * TProperty) TPropValue).

Lemma AddAnimation_group_unforced (animation : A) (lst : list A) cache :
  AnimationSystem.AddAnimation_group animation false lst cache
  = (forallb (fun anim => Animation.CouldBeMixedWith anim animation) lst, lst, cache, []).
Proof.
  induction lst as [|anim rest IH]; simpl; [reflexivity|].
  destruct (Animation.CouldBeMixedWith anim animation); simpl; [|reflexivity].
  by rewrite IH.
Qed.

Lemma AddAnimation_chain_unforced_reject (animation : A) (chain : list (list A)) cache :
  Forall (fun lst => forallb (fun anim => Animation.CouldBeMixedWith anim animation) lst
                     = false) chain ->
  AnimationSystem.AddAnimation_chain animation false chain cache = (false, chain, cache, []).
Proof.
  induction 1 as [|lst rest Hlst _ IH]; simpl; [reflexivity|].
  by rewrite AddAnimation_group_unforced, Hlst, IH.
Qed.

Lemma AddAnimation_chain_unforced_accept (animation : A) (pre : list (list A))
    (lst : list A) (post : list (list A)) cache :
  Forall (fun lst => forallb (fun anim => Animation.CouldBeMixedWith anim animation) lst
                     = false) pre ->
  forallb (fun anim => Animation.CouldBeMixedWith anim animation) lst = true ->
  AnimationSystem.AddAnimation_chain animation false (pre ++ lst :: post) cache
  = (true, pre ++ (lst ++ [Animation.OnStart animation]) :: post, cache,
     [CallOnStart animation]).
Proof.
  intros Hpre Hlst. induction Hpre as [|g pre Hg _ IH]; simpl.
  - by rewrite AddAnimation_group_unforced, Hlst.
  - by rewrite AddAnimation_group_unforced, Hg, IH.
Qed.

(** X15: without force, [AddAnimation] goes by first fit and disturbs
    nothing. The animation is started and appended to the first group all
    of whose members mix with it (an empty group is such a group), or, when
    every group has a member that does not, to a new group at the end of
    the chain; no member is interrupted or moved and the cache is as it
    was. *)
Theorem AddAnimation_unforced_first_fit (animation : A) cache :
  let mixes := forallb (fun anim => Animation.CouldBeMixedWith anim animation) in
  (forall (pre : list (list A)) (lst : list A) (post : list (list A)),
     Forall (fun lst => mixes lst = false) pre ->
     mixes lst = true ->
     AnimationSystem.AddAnimation animation false
       (AnimationSystem.mk (pre ++ lst :: post) cache)
     = (AnimationSystem.mk (pre ++ (lst ++ [Animation.OnStart animation]) :: post) cache,
        [CallOnStart animation])) /\
  (forall chain : list (list A),
     Forall (fun lst => mixes lst = false) chain ->
     AnimationSystem.AddAnimation animation false (AnimationSystem.mk chain cache)
     = (AnimationSystem.mk (chain ++ [[Animation.OnStart animation]]) cache,
        [CallOnStart animation])).
Proof.
  cbn zeta. split.
  - intros pre lst post Hpre Hlst. unfold AnimationSystem.AddAnimation. simpl.
    by rewrite (AddAnimation_chain_unforced_accept animation pre lst post cache Hpre Hlst).
  - intros chain Hall. unfold AnimationSystem.AddAnimation. simpl.
    by rewrite (AddAnimation_chain_unforced_reject animation chain cache Hall).
Qed.

End UnforcedAddAnimation.

Lemma AddAnimation_unforced_first_fit_witness :
  AnimationSystem.AddAnimation Examples.newcomer false
    (AnimationSystem.mk [[Examples.pinned]; []; [Examples.mixable_b]] ∅)
  = (AnimationSystem.mk [[Examples.pinned]; [Examples.newcomer]; [Examples.mixable_b]] ∅,
     [CallOnStart Examples.newcomer]) /\
  AnimationSystem.AddAnimation Examples.newcomer false
    (AnimationSystem.mk [[Examples.pinned]; [Examples.interruptible]] ∅)
  = (AnimationSystem.mk [[Examples.pinned]; [Examples.interruptible]; [Examples.newcomer]] ∅,
     [CallOnStart Examples.newcomer]).
Proof.
  destruct (AddAnimation_unforced_first_fit Examples.newcomer ∅) as [Hfit Hnew].
  split.
  - apply (Hfit [[Examples.pinned]] [] [[Examples.mixable_b]]);
      [apply Forall_cons_2; [reflexivity | apply Forall_nil_2] | reflexivity].
  - apply (Hnew [[Examples.pinned]; [Examples.interruptible]]).
    repeat (apply Forall_cons_2; [reflexivity|]). apply Forall_nil_2.
Defined.

(** ** AnimationSystem.AddAnimation, with or without force *)

Section AddAnimationGuarantees.
Context {A : Type} `{Animation.Ops A}.

Implicit Types (cache : gmap (TObject * TProperty) TPropValue).




End AddAnimationGuarantees.


(** ** AnimationSystem.Advance, tick by tick *)

Section AdvanceFacts.
Context {A : Type} `{Animation.Ops A}.

Implicit Types (cache : gmap (TObject * TProperty) TPropValue).

Lemma Advance_frontList_spec (dt : double) (frontList : list A) cache :
  AnimationSystem.Advance_frontList dt frontList cache
  = (List.filter (fun anim => negb (Animation.IsFinished anim))
       (Animation.Advance dt <$> frontList),
     foldl (fun cache anim =>
              AnimationSystem.SaveAnimationResult (Animation.OnFinish anim) cache)
           cache
           (List.filter (fun anim => Animation.IsFinished anim)
              (Animation.Advance dt <$> frontList)),
     flat_map (fun anim =>
                 CallAdvance anim dt
                 :: (if Animation.IsFinished (Animation.Advance dt anim)
                     then [CallOnFinish (Animation.Advance dt anim)] else []))
              frontList).
Proof.
  revert cache. induction frontList as [|anim rest IH]; intros cache; simpl; [reflexivity|].
  destruct (Animation.IsFinished (Animation.Advance dt anim)); simpl; by rewrite IH.
Qed.

Lemma save_all_keeps (finished : list A) cache (key : TObject * TProperty) :
  is_Some (cache !! key) ->
  is_Some (foldl (fun cache anim =>
                    AnimationSystem.SaveAnimationResult (Animation.OnFinish anim) cache)
                 cache finished !! key).
Proof.
  revert cache. induction finished as [|anim rest IH]; intros cache Hk; simpl; [exact Hk|].
  by apply IH, SaveAnimationResult_keeps.
Qed.

Lemma save_all_declared (finished : list A) cache (anim : A)
    (object : TObject) (property : TProperty) :
  anim ∈ finished ->
  object ∈ Animation.GetObjects (Animation.OnFinish anim) ->
  property ∈ Animation.GetProperties (Animation.OnFinish anim) object ->
  is_Some (foldl (fun cache anim =>
                    AnimationSystem.SaveAnimationResult (Animation.OnFinish anim) cache)
                 cache finished !! (object, property)).
Proof.
  intros Hin Ho Hp. revert cache.
  induction finished as [|x rest IH]; intros cache; simpl;
    [by apply not_elem_of_nil in Hin|].
  apply elem_of_cons in Hin as [<-|Hin]; [|by apply IH].
  apply save_all_keeps. rewrite (SaveAnimationResult_declared _ _ _ _ Ho Hp). by eexists.
Qed.

(** X17: one [Advance] of the scheduler, in full. Every member of the head
    group is ticked once, in order, and [OnFinish] is called on each one that
    is finished after its tick; the head group is left with the ticked
    members that are not finished; the cache is the old one with the results
    of the finished members saved in order, so no entry is lost and every
    pair a finished member declares has an entry. *)
Theorem Advance_erases_and_saves_finished (dt : double) (frontList : list A)
    (rest : list (list A)) cache :
  let r := AnimationSystem.Advance dt (AnimationSystem.mk (frontList :: rest) cache) in
  let ticked := Animation.Advance dt <$> frontList in
  AnimationSystem.m_animationChain r.1
  = List.filter (fun anim => negb (Animation.IsFinished anim)) ticked :: rest /\
  AnimationSystem.m_propertyCache r.1
  = foldl (fun cache anim =>
             AnimationSystem.SaveAnimationResult (Animation.OnFinish anim) cache)
          cache (List.filter (fun anim => Animation.IsFinished anim) ticked) /\
  r.2 = flat_map (fun anim =>
                    CallAdvance anim dt
                    :: (if Animation.IsFinished (Animation.Advance dt anim)
                        then [CallOnFinish (Animation.Advance dt anim)] else []))
                 frontList /\
  (forall key : TObject * TProperty,
     is_Some (cache !! key) -> is_Some (AnimationSystem.m_propertyCache r.1 !! key)) /\
  (forall (anim : A) (object : TObject) (property : TProperty),
     anim ∈ ticked -> Animation.IsFinished anim = true ->
     object ∈ Animation.GetObjects (Animation.OnFinish anim) ->
     property ∈ Animation.GetProperties (Animation.OnFinish anim) object ->
     is_Some (AnimationSystem.m_propertyCache r.1 !! (object, property))).
Proof.
  cbn zeta. unfold AnimationSystem.Advance. simpl.
  rewrite Advance_frontList_spec. simpl.
  split; [reflexivity|]. split; [reflexivity|]. split; [reflexivity|]. split.
  - intros key. apply save_all_keeps.
  - intros anim object property Hin Hfin. apply save_all_declared.
    apply list_elem_of_In, filter_In. split; [by apply list_elem_of_In | exact Hfin].
Qed.

(** X18: the last value of a finished animation is read once. When the one
    member [D] of the head group is finished by a tick, then for a pair it
    declares [AnimationExists] still holds of the object, the next
    [GetProperty] returns the value [D] had when it finished and erases it,
    and the same [GetProperty] again returns the fallback. *)
Theorem Advance_then_GetProperty_reads_last_value_once (dt : double) (D : A)
    (rest : list (list A)) cache (object : TObject) (property : TProperty)
    (current : TPropValue) :
  let D2 := Animation.OnFinish (Animation.Advance dt D) in
  Animation.IsFinished (Animation.Advance dt D) = true ->
  object ∈ Animation.GetObjects D2 ->
  property ∈ Animation.GetProperties D2 object ->
  let s1 := (AnimationSystem.Advance dt (AnimationSystem.mk ([D] :: rest) cache)).1 in
  let s2 := (AnimationSystem.GetProperty object property current s1).2 in
  AnimationSystem.m_animationChain s1 = [] :: rest /\
  AnimationSystem.AnimationExists object s1 = true /\
  (AnimationSystem.GetProperty object property current s1).1
  = Animation.GetProperty D2 object property /\
  AnimationSystem.GetProperty object property current s2 = (current, s2).
Proof.
  intros D2 Hfin Ho Hp. cbn zeta.
  assert (Hs1 : (AnimationSystem.Advance dt (AnimationSystem.mk ([D] :: rest) cache)).1
                = AnimationSystem.mk ([] :: rest)
                    (AnimationSystem.SaveAnimationResult D2 cache)).
  { unfold AnimationSystem.Advance. simpl. by rewrite Hfin. }
  rewrite Hs1.
  pose proof (SaveAnimationResult_declared D2 cache object property Ho Hp) as Hsaved.
  split; [reflexivity|]. split.
  - apply AnimationExists_with_head_group. right.
    by exists property, (Animation.GetProperty D2 object property).
  - rewrite GetProperty_not_animated by constructor. simpl. rewrite Hsaved. simpl.
    split; [reflexivity|].
    rewrite GetProperty_not_animated by constructor. simpl.
    by rewrite lookup_delete_eq.
Qed.

End AdvanceFacts.

Lemma Advance_erases_and_saves_finished_witness :
  let a := FollowAnimation.Advance 0.5 Examples.zoom in
  let r := AnimationSystem.Advance 0.5
             (AnimationSystem.mk [[Examples.rotate; Examples.zoom]] ∅) in
  Animation.IsFinished a = true /\
  AnimationSystem.m_animationChain r.1 = [[FollowAnimation.Advance 0.5 Examples.rotate]] /\
  is_Some (AnimationSystem.m_propertyCache r.1 !! (MapPlane, Scale)).
Proof.
  cbn zeta.
  destruct (Advance_erases_and_saves_finished 0.5 [Examples.rotate; Examples.zoom] [] ∅)
    as (Hchain & _ & _ & _ & Hsaved).
  assert (Hfin : Animation.IsFinished (FollowAnimation.Advance 0.5 Examples.zoom) = true)
    by reflexivity.
  split; [exact Hfin|]. split; [rewrite Hchain; reflexivity|].
  apply (Hsaved (FollowAnimation.Advance 0.5 Examples.zoom) MapPlane Scale).
  - right. by left.
  - exact Hfin.
  - apply (bool_decide_unpack _). vm_compute. exact I.
  - apply (bool_decide_unpack _). vm_compute. exact I.
Defined.

Lemma Advance_then_GetProperty_reads_last_value_once_witness :
  let s1 := (AnimationSystem.Advance 1 (AnimationSystem.mk [[Examples.zoom]] ∅)).1 in
  Animation.IsFinished (Animation.Advance 1 Examples.zoom) = true /\
  (AnimationSystem.GetProperty MapPlane Scale (PropDouble 7) s1).1 = PropDouble 2 /\
  (AnimationSystem.GetProperty MapPlane Scale (PropDouble 7)
     (AnimationSystem.GetProperty MapPlane Scale (PropDouble 7) s1).2).1 = PropDouble 7.
Proof.
  cbn zeta.
  assert (Hfin : Animation.IsFinished (Animation.Advance 1 Examples.zoom) = true)
    by reflexivity.
  assert (Ho : MapPlane ∈ Animation.GetObjects
                 (Animation.OnFinish (Animation.Advance 1 Examples.zoom)))
    by (apply (bool_decide_unpack _); vm_compute; exact I).
  assert (Hp : Scale ∈ Animation.GetProperties
                 (Animation.OnFinish (Animation.Advance 1 Examples.zoom)) MapPlane)
    by (apply (bool_decide_unpack _); vm_compute; exact I).
  destruct (Advance_then_GetProperty_reads_last_value_once 1 Examples.zoom [] ∅
              MapPlane Scale (PropDouble 7) Hfin Ho Hp) as (_ & _ & Hfirst & Hsecond).
  split; [exact Hfin|]. split; [rewrite Hfirst; reflexivity|].
  rewrite Hsecond. reflexivity.
Defined.

(** ** AnimationSystem.GetProperty, AnimationExists and GetRect *)

Section QueryFacts.
Context {A : Type} `{Animation.Ops A}.

Implicit Types (cache : gmap (TObject * TProperty) TPropValue).

Lemma find_first (f : A -> bool) (pre : list A) (x : A) (post : list A) :
  Forall (fun y => f y = false) pre -> f x = true -> find f (pre ++ x :: post) = Some x.
Proof.
  intros Hpre Hx. induction Hpre as [|y pre Hy _ IH]; simpl; [by rewrite Hx|].
  by rewrite Hy.
Qed.

(** X19: what [GetProperty] leaves alone. It never changes the chain, and
    no entry of the cache other than the one asked for; and when a member
    of the head group has the property, the value of the first such member
    is returned and the whole system is as it was, a cached value for the
    same key included. *)
Theorem GetProperty_frame (object : TObject) (property : TProperty)
    (current : TPropValue) (s : AnimationSystem.t A) :
  let r := AnimationSystem.GetProperty object property current s in
  AnimationSystem.m_animationChain r.2 = AnimationSystem.m_animationChain s /\
  (forall key : TObject * TProperty, key <> (object, property) ->
     AnimationSystem.m_propertyCache r.2 !! key = AnimationSystem.m_propertyCache s !! key) /\
  (forall (pre : list A) (anim : A) (post : list A) (rest : list (list A)),
     AnimationSystem.m_animationChain s = (pre ++ anim :: post) :: rest ->
     Forall (fun member => Animation.HasProperty member object property = false) pre ->
     Animation.HasProperty anim object property = true ->
     r = (Animation.GetProperty anim object property, s)).
Proof.
  cbn zeta. unfold AnimationSystem.GetProperty. split; [|split].
  - destruct (match AnimationSystem.m_animationChain s with [] => None | _ => _ end);
      [reflexivity|].
    by destruct (AnimationSystem.m_propertyCache s !! (object, property)).
  - intros key Hne.
    destruct (match AnimationSystem.m_animationChain s with [] => None | _ => _ end);
      [reflexivity|].
    destruct (AnimationSystem.m_propertyCache s !! (object, property)); [|reflexivity].
    simpl. by rewrite lookup_delete_ne.
  - intros pre anim post rest Hchain Hpre Hanim. rewrite Hchain.
    by rewrite (find_first _ pre anim post Hpre Hanim).
Qed.

(** X20: on a chain that has a head group, [AnimationExists] holds of an
    object exactly when a member of the head group has the object or the
    cache has an entry keyed by it; animations queued in later groups do not
    count. *)
Theorem AnimationExists_head_group_or_cache (object : TObject) (s : AnimationSystem.t A) :
  AnimationSystem.m_animationChain s <> [] ->
  (AnimationSystem.AnimationExists object s = true
   <-> (exists anim, anim ∈ default [] (head (AnimationSystem.m_animationChain s)) /\
                     Animation.HasObject anim object = true) \/
       (exists (property : TProperty) (value : TPropValue),
          AnimationSystem.m_propertyCache s !! (object, property) = Some value)) /\
  AnimationSystem.AnimationExists object s
  = AnimationSystem.AnimationExists object
      (AnimationSystem.mk (take 1 (AnimationSystem.m_animationChain s))
         (AnimationSystem.m_propertyCache s)).
Proof.
  intros Hne. destruct s as [[|front rest] cache]; [by destruct Hne|]. simpl.
  split; [apply AnimationExists_with_head_group | reflexivity].
Qed.

Lemma GetProperty_resolved (object : TObject) (property : TProperty)
    (current : TPropValue) (s : AnimationSystem.t A) :
  Forall (fun anim => Animation.HasProperty anim object property = false)
         (default [] (head (AnimationSystem.m_animationChain s))) ->
  AnimationSystem.GetProperty object property current s
  = (default current (AnimationSystem.m_propertyCache s !! (object, property)),
     AnimationSystem.mk (AnimationSystem.m_animationChain s)
       (delete (object, property) (AnimationSystem.m_propertyCache s))).
Proof.
  intros Hq. rewrite (GetProperty_not_animated _ _ _ _ Hq).
  destruct (AnimationSystem.m_propertyCache s !! (object, property)) eqn:Hc;
    [reflexivity|].
  simpl. rewrite (delete_id _ _ Hc). by destruct s.
Qed.

Section GetRectFacts.
Variable GetScale GetAngle : ScreenBase -> double.
Variable GlobalZero : ScreenBase -> PointD.
Variable AnyRectD : Type.
Variable OrientedRect : ScreenBase -> PointD -> double -> double -> AnyRectD.

(** X21: [GetRect] reads the scale, the angle and the position of the map
    plane in this order. When no member of the head group has them, each is
    the cached value or else the value of the screen, the rectangle is built
    from the three, and the three cache entries are gone: the next [GetRect]
    is built from the values of the screen alone and changes nothing. When
    the value cached for the scale is a point, [boost::get] throws after that
    entry alone has been erased. *)
Theorem GetRect_consumes_cached_values (currentScreen : ScreenBase)
    (s : AnimationSystem.t A) :
  let quiet property :=
    Forall (fun anim => Animation.HasProperty anim MapPlane property = false)
           (default [] (head (AnimationSystem.m_animationChain s))) in
  let cache := AnimationSystem.m_propertyCache s in
  let rect := AnimationSystem.GetRect GetScale GetAngle GlobalZero AnyRectD OrientedRect
                currentScreen in
  (quiet Scale -> quiet Angle -> quiet Position ->
   forall (scale angle : double) (pos : PointD),
     default (PropDouble (GetScale currentScreen)) (cache !! (MapPlane, Scale))
     = PropDouble scale ->
     default (PropDouble (GetAngle currentScreen)) (cache !! (MapPlane, Angle))
     = PropDouble angle ->
     default (PropPoint (GlobalZero currentScreen)) (cache !! (MapPlane, Position))
     = PropPoint pos ->
     let s1 := AnimationSystem.mk (AnimationSystem.m_animationChain s)
                 (delete (MapPlane, Position)
                    (delete (MapPlane, Angle) (delete (MapPlane, Scale) cache))) in
     rect s = (Some (OrientedRect currentScreen pos angle scale), s1) /\
     rect s1 = (Some (OrientedRect currentScreen (GlobalZero currentScreen)
                        (GetAngle currentScreen) (GetScale currentScreen)), s1)) /\
  (quiet Scale ->
   forall point : PointD,
     cache !! (MapPlane, Scale) = Some (PropPoint point) ->
     rect s = (None, AnimationSystem.mk (AnimationSystem.m_animationChain s)
                       (delete (MapPlane, Scale) cache))).
Proof.
  cbn zeta. split.
  - intros Hqs Hqa Hqp scale angle pos Hs Ha Hp.
    assert (Hread : forall s0 : AnimationSystem.t A,
      AnimationSystem.m_animationChain s0 = AnimationSystem.m_animationChain s ->
      forall scale angle pos,
      default (PropDouble (GetScale currentScreen))
        (AnimationSystem.m_propertyCache s0 !! (MapPlane, Scale)) = PropDouble scale ->
      default (PropDouble (GetAngle currentScreen))
        (AnimationSystem.m_propertyCache s0 !! (MapPlane, Angle)) = PropDouble angle ->
      default (PropPoint (GlobalZero currentScreen))
        (AnimationSystem.m_propertyCache s0 !! (MapPlane, Position)) = PropPoint pos ->
      AnimationSystem.GetRect GetScale GetAngle GlobalZero AnyRectD OrientedRect
        currentScreen s0
      = (Some (OrientedRect currentScreen pos angle scale),
         AnimationSystem.mk (AnimationSystem.m_animationChain s0)
           (delete (MapPlane, Position)
              (delete (MapPlane, Angle)
                 (delete (MapPlane, Scale) (AnimationSystem.m_propertyCache s0)))))).
    { intros s0 Hchain sc an po Hs0 Ha0 Hp0. unfold AnimationSystem.GetRect.
      rewrite GetProperty_resolved by (by rewrite Hchain). rewrite Hs0. simpl.
      rewrite GetProperty_resolved by (simpl; by rewrite Hchain). simpl.
      rewrite lookup_delete_ne by discriminate. rewrite Ha0. simpl.
      rewrite GetProperty_resolved by (simpl; by rewrite Hchain). simpl.
      rewrite !lookup_delete_ne by discriminate. by rewrite Hp0. }
    split; [by apply Hread|].
    set (cache1 := delete (MapPlane, Position)
                     (delete (MapPlane, Angle)
                        (delete (MapPlane, Scale) (AnimationSystem.m_propertyCache s)))).
    assert (Hnos : cache1 !! (MapPlane, Scale) = None)
      by (unfold cache1; by rewrite !lookup_delete_ne, lookup_delete_eq by discriminate).
    assert (Hnoa : cache1 !! (MapPlane, Angle) = None)
      by (unfold cache1; by rewrite lookup_delete_ne, lookup_delete_eq by discriminate).
    assert (Hnop : cache1 !! (MapPlane, Position) = None)
      by (unfold cache1; by rewrite lookup_delete_eq).
    rewrite (Hread (AnimationSystem.mk (AnimationSystem.m_animationChain s) cache1)
               eq_refl (GetScale currentScreen) (GetAngle currentScreen)
               (GlobalZero currentScreen)); simpl;
      [|by rewrite Hnos|by rewrite Hnoa|by rewrite Hnop].
    rewrite (delete_id _ _ Hnos), (delete_id _ _ Hnoa), (delete_id _ _ Hnop).
    reflexivity.
  - intros Hqs point Hc. unfold AnimationSystem.GetRect.
    rewrite GetProperty_resolved by exact Hqs. by rewrite Hc.
Qed.

End GetRectFacts.

End QueryFacts.

Lemma GetProperty_frame_witness :
  let s := AnimationSystem.mk [[Examples.rotate; Examples.zoom]]
             {[ (MapPlane, Scale) := PropDouble 9 ]} in
  Animation.HasProperty Examples.rotate MapPlane Scale = false /\
  Animation.HasProperty Examples.zoom MapPlane Scale = true /\
  AnimationSystem.GetProperty MapPlane Scale (PropDouble 7) s = (PropDouble 1, s).
Proof.
  cbn zeta.
  assert (Hr : Animation.HasProperty Examples.rotate MapPlane Scale = false) by reflexivity.
  assert (Hz : Animation.HasProperty Examples.zoom MapPlane Scale = true) by reflexivity.
  destruct (GetProperty_frame MapPlane Scale (PropDouble 7)
              (AnimationSystem.mk [[Examples.rotate; Examples.zoom]]
                 {[ (MapPlane, Scale) := PropDouble 9 ]})) as (_ & _ & Hfirst).
  split; [exact Hr|]. split; [exact Hz|].
  exact (Hfirst [Examples.rotate] Examples.zoom [] [] eq_refl
           (Forall_cons_2 _ _ _ Hr (Forall_nil_2 _)) Hz).
Defined.

Lemma AnimationExists_head_group_or_cache_witness :
  let s := AnimationSystem.mk [[]; [Examples.move]] {[ (MapPlane, Angle) := PropDouble 1 ]} in
  AnimationSystem.m_animationChain s <> [] /\
  AnimationSystem.AnimationExists MapPlane s = true /\
  AnimationSystem.AnimationExists MapPlane
    (AnimationSystem.mk [[]; [Examples.move]] ∅) = false.
Proof.
  cbn zeta.
  assert (Hne : AnimationSystem.m_animationChain
                  (AnimationSystem.mk [[]; [Examples.move]]
                     ({[ (MapPlane, Angle) := PropDouble 1 ]}
                        : gmap (TObject * TProperty) TPropValue)) <> [])
    by discriminate.
  destruct (AnimationExists_head_group_or_cache MapPlane
              (AnimationSystem.mk [[]; [Examples.move]]
                 {[ (MapPlane, Angle) := PropDouble 1 ]}) Hne) as [Hiff _].
  split; [exact Hne|]. split; [|reflexivity].
  apply Hiff. right. exists Angle, (PropDouble 1). reflexivity.
Defined.

Lemma GetRect_consumes_cached_values_witness :
  let rect := AnimationSystem.GetRect (A := FollowAnimation.t)
                (fun _ => 1) (fun _ => 0) (fun _ => Examples.origin)
                (PointD * double * double)
                (fun _ pos angle scale => (pos, angle, scale)) Examples.screen in
  let s := AnimationSystem.mk [[]] {[ (MapPlane, Scale) := PropDouble 2 ]} in
  let s1 := AnimationSystem.mk [[]] ∅ in
  rect s = (Some (Examples.origin, 0, 2), s1) /\
  rect s1 = (Some (Examples.origin, 0, 1), s1) /\
  rect (AnimationSystem.mk [[]] {[ (MapPlane, Scale) := PropPoint Examples.origin ]})
  = (None, s1).
Proof.
  cbn zeta.
  destruct (GetRect_consumes_cached_values (A := FollowAnimation.t)
              (fun _ => 1) (fun _ => 0) (fun _ => Examples.origin)
              (PointD * double * double)
              (fun _ pos angle scale => (pos, angle, scale)) Examples.screen
              (AnimationSystem.mk [[]] {[ (MapPlane, Scale) := PropDouble 2 ]}))
    as [Hread _].
  destruct (GetRect_consumes_cached_values (A := FollowAnimation.t)
              (fun _ => 1) (fun _ => 0) (fun _ => Examples.origin)
              (PointD * double * double)
              (fun _ pos angle scale => (pos, angle, scale)) Examples.screen
              (AnimationSystem.mk [[]]
                 {[ (MapPlane, Scale) := PropPoint Examples.origin ]}))
    as [_ Hthrow].
  destruct (Hread (Forall_nil_2 _) (Forall_nil_2 _) (Forall_nil_2 _)
              2 0 Examples.origin eq_refl eq_refl eq_refl) as [Hfirst Hsecond].
  split; [rewrite Hfirst; reflexivity|].
  split; [exact Hsecond|].
  rewrite (Hthrow (Forall_nil_2 _) Examples.origin eq_refl). reflexivity.
Defined.

(** ** AnimationSystem.AddAnimation with force *)

Section ForcedAddAnimation.
Context {A : Type} `{Animation.Ops A}.

Implicit Types (cache : gmap (TObject * TProperty) TPropValue).

Lemma AddAnimation_group_forced (animation : A) (lst : list A) cache :
  Forall (fun anim => Animation.CouldBeMixedWith anim animation = true \/
                      Animation.m_couldBeInterrupted anim = true) lst ->
  AnimationSystem.AddAnimation_group animation true lst cache
  = (true,
     List.filter (fun anim => Animation.CouldBeMixedWith anim animation) lst,
     foldl (fun cache anim =>
              AnimationSystem.SaveAnimationResult (Animation.Interrupt anim) cache)
           cache
           (List.filter (fun anim => negb (Animation.CouldBeMixedWith anim animation)) lst),
     CallInterrupt
       <$> List.filter (fun anim => negb (Animation.CouldBeMixedWith anim animation)) lst).
Proof.
  intros Hall. revert cache. induction Hall as [|anim rest Hanim _ IH]; intros cache; simpl;
    [reflexivity|].
  destruct (Animation.CouldBeMixedWith anim animation) eqn:Hmix; simpl.
  - by rewrite IH.
  - destruct Hanim as [?|Hint]; [congruence|].
    unfold Animation.CouldBeInterrupted. rewrite Hint. simpl. by rewrite IH.
Qed.

(** X22: a forced [AddAnimation] into a head group in which every member
    that does not mix can be interrupted always lands in that group. The
    members that do not mix are interrupted in order, the result of each is
    saved after its interruption, and they are erased; the members that mix
    stay in order, and the started animation comes last. Later groups are
    not looked at. *)
Theorem AddAnimation_forced_evicts_what_does_not_mix (animation : A) (lst : list A)
    (rest : list (list A)) cache :
  Forall (fun anim => Animation.CouldBeMixedWith anim animation = true \/
                      Animation.m_couldBeInterrupted anim = true) lst ->
  let evicted :=
    List.filter (fun anim => negb (Animation.CouldBeMixedWith anim animation)) lst in
  AnimationSystem.AddAnimation animation true (AnimationSystem.mk (lst :: rest) cache)
  = (AnimationSystem.mk
       ((List.filter (fun anim => Animation.CouldBeMixedWith anim animation) lst
         ++ [Animation.OnStart animation]) :: rest)
       (foldl (fun cache anim =>
                 AnimationSystem.SaveAnimationResult (Animation.Interrupt anim) cache)
              cache evicted),
     (CallInterrupt <$> evicted) ++ [CallOnStart animation]).
Proof.
  intros Hall. cbn zeta. unfold AnimationSystem.AddAnimation. simpl.
  by rewrite (AddAnimation_group_forced animation lst cache Hall).
Qed.

(** X23: [SaveAnimationResult] writes the pairs the animation declares and
    no other: afterwards a key holds the value of the animation when its
    object is one of the objects of the animation and its property one of
    the properties declared for that object, and what it held before
    otherwise. Saving the same animation twice is saving it once. *)
Theorem SaveAnimationResult_writes_declared_pairs (animation : A) cache :
  (forall (object : TObject) (property : TProperty),
     object ∈ Animation.GetObjects animation ->
     property ∈ Animation.GetProperties animation object ->
     AnimationSystem.SaveAnimationResult animation cache !! (object, property)
     = Some (Animation.GetProperty animation object property)) /\
  (forall (object : TObject) (property : TProperty),
     ~ (object ∈ Animation.GetObjects animation /\
        property ∈ Animation.GetProperties animation object) ->
     AnimationSystem.SaveAnimationResult animation cache !! (object, property)
     = cache !! (object, property)) /\
  AnimationSystem.SaveAnimationResult animation
    (AnimationSystem.SaveAnimationResult animation cache)
  = AnimationSystem.SaveAnimationResult animation cache.
Proof.
  split; [|split].
  - intros object property. apply SaveAnimationResult_declared.
  - intros object property Hn. rewrite SaveAnimationResult_lookup. by rewrite decide_False.
  - apply map_eq. intros [object property]. rewrite !SaveAnimationResult_lookup.
    by destruct (decide _).
Qed.

End ForcedAddAnimation.

Lemma AddAnimation_forced_evicts_what_does_not_mix_witness :
  AnimationSystem.AddAnimation Examples.newcomer true
    (AnimationSystem.mk [[Examples.mixable_b; Examples.interruptible]; [Examples.pinned]] ∅)
  = (AnimationSystem.mk [[Examples.mixable_b; Examples.newcomer]; [Examples.pinned]]
       {[ (MapPlane, Position) := PropDouble 3 ]},
     [CallInterrupt Examples.interruptible; CallOnStart Examples.newcomer]).
Proof.
  rewrite (AddAnimation_forced_evicts_what_does_not_mix Examples.newcomer
             [Examples.mixable_b; Examples.interruptible] [[Examples.pinned]] ∅);
    [reflexivity|].
  apply Forall_cons_2; [left; reflexivity|].
  apply Forall_cons_2; [right; reflexivity | apply Forall_nil_2].
Defined.

Lemma SaveAnimationResult_writes_declared_pairs_witness :
  AnimationSystem.SaveAnimationResult Examples.zoom
    {[ (MapPlane, Angle) := PropDouble 5 ]} !! (MapPlane, Scale) = Some (PropDouble 1) /\
  AnimationSystem.SaveAnimationResult Examples.zoom
    {[ (MapPlane, Angle) := PropDouble 5 ]} !! (MapPlane, Angle) = Some (PropDouble 5).
Proof.
  destruct (SaveAnimationResult_writes_declared_pairs Examples.zoom
              {[ (MapPlane, Angle) := PropDouble 5 ]}) as (Hin & Hout & _).
  split.
  - rewrite (Hin MapPlane Scale); [reflexivity|..];
      apply (bool_decide_unpack _); vm_compute; exact I.
  - rewrite (Hout MapPlane Angle); [reflexivity|].
    intros [_ Hp]. revert Hp. apply (bool_decide_unpack _). vm_compute. exact I.
Defined.

(** ** A zero-duration interpolator ticked by zero seconds *)

Section ZeroDuration.

Lemma mul_nan_r (x : float) : x * nan = nan.
Proof.
  apply Prim2SF_inj. rewrite mul_spec. change (Prim2SF nan) with S754_nan.
  by destruct (Prim2SF x).
Qed.

Lemma add_nan_r (x : float) : x + nan = nan.
Proof.
  apply Prim2SF_inj. rewrite add_spec. change (Prim2SF nan) with S754_nan.
  by destruct (Prim2SF x).
Qed.

End ZeroDuration.

(** X24: a move so short that its pixel length is below 1e-5 gets the
    duration 0. Ticked by 0 seconds, its interpolator is not finished (the
    elapsed time is not above the duration), its progress is 0/0, and the
    position it reports is (nan, nan), whatever the end points. *)
Theorem PositionInterpolator_zero_duration_tick
    (startPosition endPosition : PointD) (convertor : ScreenBase) :
  PositionInterpolator.GetMoveDuration startPosition endPosition convertor = 0 ->
  let p := PositionInterpolator.Advance 0
             (PositionInterpolator.create startPosition endPosition convertor) in
  Interpolator.IsFinished (PositionInterpolator.base p) = false /\
  Interpolator.GetT (PositionInterpolator.base p) = nan /\
  PositionInterpolator.GetPosition p = mkPointD nan nan.
Proof.
  intros Hd. cbn zeta.
  unfold PositionInterpolator.Advance, PositionInterpolator.create,
    PositionInterpolator.create_delayed, PositionInterpolator.GetPosition. simpl.
  rewrite Hd.
  assert (Ht : Interpolator.GetT (Interpolator.Advance 0 (Interpolator.create 0 0)) = nan)
    by reflexivity.
  split; [reflexivity|]. split; [exact Ht|].
  rewrite Ht. unfold InterpolatePoint. by rewrite !mul_nan_r, !add_nan_r.
Qed.

Lemma PositionInterpolator_zero_duration_tick_witness :
  let tiny := mkPointD 0x1p-30 0 in
  PointD_neqb Examples.origin tiny = true /\
  PositionInterpolator.GetMoveDuration Examples.origin tiny Examples.screen = 0 /\
  Animation.GetProperty
    (Animation.Advance 0
       (FollowAnimation.create Examples.origin tiny 0 0 1 1 Examples.screen))
    MapPlane Position = PropPoint (mkPointD nan nan).
Proof.
  cbn zeta.
  assert (Hd : PositionInterpolator.GetMoveDuration Examples.origin (mkPointD 0x1p-30 0)
                 Examples.screen = 0) by reflexivity.
  destruct (PositionInterpolator_zero_duration_tick Examples.origin (mkPointD 0x1p-30 0)
              Examples.screen Hd) as (_ & _ & Hpos).
  split; [reflexivity|]. split; [exact Hd|].
  change (PropPoint (PositionInterpolator.GetPosition
            (PositionInterpolator.Advance 0
               (PositionInterpolator.create Examples.origin (mkPointD 0x1p-30 0)
                  Examples.screen)))
          = PropPoint (mkPointD nan nan)).
  by rewrite Hpos.
Defined.

(** ** FollowAnimation.GetDuration and FollowAnimation.IsFinished *)

Section Binary64Order.

Ltac compare_cases :=
  repeat match goal with
  | |- context [IntDef.Z.compare ?a ?b] =>
      change (IntDef.Z.compare a b) with (Z.compare a b);
      destruct (Z.compare_spec a b)
  | |- context [PosDef.Pos.compare_cont Eq ?a ?b] =>
      change (PosDef.Pos.compare_cont Eq a b) with (Pos.compare a b);
      destruct (Pos.compare_spec a b)
  end.

Lemma SFleb_ltb_trans (x y z : spec_float) :
  SFleb x y = true -> SFltb y z = true -> SFltb x z = true.
Proof.
  unfold SFleb, SFltb.
  destruct x as [sx|sx| |sx mx ex], y as [sy|sy| |sy my ey], z as [sz|sz| |sz mz ez];
    try discriminate; simpl;
    try (destruct sx; simpl; try discriminate; try reflexivity);
    try (destruct sy; simpl; try discriminate; try reflexivity);
    try (destruct sz; simpl; try discriminate; try reflexivity);
    try done;
    compare_cases; simpl; try discriminate; try reflexivity; try lia.
Qed.

Lemma SFleb_trans (x y z : spec_float) :
  SFleb x y = true -> SFleb y z = true -> SFleb x z = true.
Proof.
  unfold SFleb.
  destruct x as [sx|sx| |sx mx ex], y as [sy|sy| |sy my ey], z as [sz|sz| |sz mz ez];
    try discriminate; simpl;
    try (destruct sx; simpl; try discriminate; try reflexivity);
    try (destruct sy; simpl; try discriminate; try reflexivity);
    try (destruct sz; simpl; try discriminate; try reflexivity);
    try done;
    compare_cases; simpl; try discriminate; try reflexivity; try lia.
Qed.

Lemma leb_ltb_trans (x y z : float) :
  (x <=? y) = true -> (y <? z) = true -> (x <? z) = true.
Proof. rewrite FloatAxioms.leb_spec, !FloatAxioms.ltb_spec. apply SFleb_ltb_trans. Qed.

Lemma leb_trans (x y z : float) :
  (x <=? y) = true -> (y <=? z) = true -> (x <=? z) = true.
Proof. rewrite !FloatAxioms.leb_spec. apply SFleb_trans. Qed.

(** Adding +0 changes at most the sign of a zero, which no comparison
    sees. *)
Lemma ltb_add_zero (d t : float) : (d + 0 <? 0 + t) = (d <? t).
Proof.
  rewrite !FloatAxioms.ltb_spec, !add_spec. change (Prim2SF 0) with (S754_zero false).
  unfold SFltb.
  destruct (Prim2SF d) as [sd|sd| |sd md ed], (Prim2SF t) as [st|st| |st mt et];
    try reflexivity; try (destruct sd; reflexivity); try (destruct st; reflexivity);
    destruct sd, st; reflexivity.
Qed.

Lemma std_max_geb (a b : double) :
  is_nan a = false -> is_nan b = false ->
  (a <=? std_max a b) = true /\ (b <=? std_max a b) = true /\
  is_nan (std_max a b) = false.
Proof.
  intros Ha Hb. unfold std_max. destruct (a <? b) eqn:Hlt.
  - split; [by apply ltb_leb|]. split; [by apply leb_refl | exact Hb].
  - split; [by apply leb_refl|]. split; [by apply not_ltb_leb | exact Ha].
Qed.

Lemma Interpolator_Fresh_finished (dt : double) (i : Interpolator.t) :
  Interpolator_Fresh i -> (Interpolator.m_duration i <? dt) = true ->
  Interpolator.IsFinished (Interpolator.Advance dt i) = true.
Proof.
  intros (He & Hl & _) Hlt. unfold Interpolator.IsFinished, Interpolator.Advance, gtb.
  simpl. by rewrite He, Hl, ltb_add_zero.
Qed.

End Binary64Order.

(** X25: [GetDuration] is the time a follow animation needs. On an
    animation whose interpolators are as constructed (nothing elapsed, no
    delay, durations that are numbers), one [Advance] by more than
    [GetDuration] finishes it; and [GetDuration] is at least the duration of
    each interpolator. *)
Theorem FollowAnimation_finished_after_GetDuration (dt : double) (f : FollowAnimation.t) :
  (forall a, FollowAnimation.m_angleInterpolator f = Some a ->
     Interpolator_Fresh (AngleInterpolator.base a)) ->
  (forall s, FollowAnimation.m_scaleInterpolator f = Some s ->
     Interpolator_Fresh (ScaleInterpolator.base s)) ->
  (forall p, FollowAnimation.m_positionInterpolator f = Some p ->
     Interpolator_Fresh (PositionInterpolator.base p)) ->
  ((forall a, FollowAnimation.m_angleInterpolator f = Some a ->
      (Interpolator.m_duration (AngleInterpolator.base a)
         <=? FollowAnimation.GetDuration f) = true) /\
   (forall s, FollowAnimation.m_scaleInterpolator f = Some s ->
      (Interpolator.m_duration (ScaleInterpolator.base s)
         <=? FollowAnimation.GetDuration f) = true) /\
   (forall p, FollowAnimation.m_positionInterpolator f = Some p ->
      (Interpolator.m_duration (PositionInterpolator.base p)
         <=? FollowAnimation.GetDuration f) = true)) /\
  ((FollowAnimation.GetDuration f <? dt) = true ->
   FollowAnimation.IsFinished (FollowAnimation.Advance dt f) = true).
Proof.
  intros Ha Hs Hp.
  set (d0 := match FollowAnimation.m_angleInterpolator f with
             | Some a => Interpolator.GetDuration (AngleInterpolator.base a)
             | None => 0
             end).
  set (d1 := match FollowAnimation.m_scaleInterpolator f with
             | Some s => std_max d0 (Interpolator.GetDuration (ScaleInterpolator.base s))
             | None => d0
             end).
  assert (Hg : FollowAnimation.GetDuration f
               = match FollowAnimation.m_positionInterpolator f with
                 | Some p => std_max d1 (Interpolator.GetDuration (PositionInterpolator.base p))
                 | None => d1
                 end) by reflexivity.
  assert (Hn0 : is_nan d0 = false).
  { unfold d0. destruct (FollowAnimation.m_angleInterpolator f) as [a|] eqn:Ea;
      [by destruct (Ha a eq_refl) as (_ & _ & ?) | reflexivity]. }
  assert (Hn1 : is_nan d1 = false /\ (d0 <=? d1) = true).
  { unfold d1. destruct (FollowAnimation.m_scaleInterpolator f) as [s|] eqn:Es.
    - destruct (Hs s eq_refl) as (_ & _ & Hns).
      destruct (std_max_geb d0 _ Hn0 Hns) as (H0 & _ & Hn). by split.
    - split; [exact Hn0 | by apply leb_refl]. }
  destruct Hn1 as [Hn1 H01].
  assert (H1g : (d1 <=? FollowAnimation.GetDuration f) = true).
  { rewrite Hg. destruct (FollowAnimation.m_positionInterpolator f) as [p|] eqn:Ep.
    - destruct (Hp p eq_refl) as (_ & _ & Hnp).
      by destruct (std_max_geb d1 _ Hn1 Hnp) as (H1 & _ & _).
    - by apply leb_refl. }
  assert (Hbounds :
    (forall a, FollowAnimation.m_angleInterpolator f = Some a ->
       (Interpolator.m_duration (AngleInterpolator.base a)
          <=? FollowAnimation.GetDuration f) = true) /\
    (forall s, FollowAnimation.m_scaleInterpolator f = Some s ->
       (Interpolator.m_duration (ScaleInterpolator.base s)
          <=? FollowAnimation.GetDuration f) = true) /\
    (forall p, FollowAnimation.m_positionInterpolator f = Some p ->
       (Interpolator.m_duration (PositionInterpolator.base p)
          <=? FollowAnimation.GetDuration f) = true)).
  { split; [|split].
    - intros a Ea. apply (leb_trans _ d1); [|exact H1g].
      apply (leb_trans _ d0); [|exact H01].
      unfold d0. rewrite Ea. apply leb_refl. by destruct (Ha a Ea) as (_ & _ & ?).
    - intros s Es. apply (leb_trans _ d1); [|exact H1g].
      unfold d1. rewrite Es. destruct (Hs s Es) as (_ & _ & Hns).
      by destruct (std_max_geb d0 _ Hn0 Hns) as (_ & H & _).
    - intros p Ep. rewrite Hg, Ep. destruct (Hp p Ep) as (_ & _ & Hnp).
      by destruct (std_max_geb d1 _ Hn1 Hnp) as (_ & H & _). }
  split; [exact Hbounds|].
  intros Hlt. destruct Hbounds as (Hba & Hbs & Hbp).
  unfold FollowAnimation.IsFinished, FollowAnimation.Advance. simpl.
  destruct (FollowAnimation.m_angleInterpolator f) as [a|] eqn:Ea;
    destruct (FollowAnimation.m_scaleInterpolator f) as [s|] eqn:Es;
    destruct (FollowAnimation.m_positionInterpolator f) as [p|] eqn:Ep; simpl;
    repeat (apply andb_true_intro; split); try reflexivity;
    apply Interpolator_Fresh_finished;
    first [ by apply Ha | by apply Hs | by apply Hp
          | eapply leb_ltb_trans; [|exact Hlt];
            first [by apply Hba | by apply Hbs | by apply Hbp] ].
Qed.

Lemma FollowAnimation_finished_after_GetDuration_witness :
  let f := FollowAnimation.create Examples.origin (mkPointD 10 0) 0 1 1 2 Examples.screen in
  (FollowAnimation.GetDuration f <? 0.75) = true /\
  FollowAnimation.IsFinished (FollowAnimation.Advance 0.5 f) = false /\
  FollowAnimation.IsFinished (FollowAnimation.Advance 0.75 f) = true.
Proof.
  cbn zeta. split; [reflexivity|]. split; [reflexivity|].
  apply (FollowAnimation_finished_after_GetDuration 0.75); [..|reflexivity];
    intros x [= <-]; repeat split; reflexivity.
Defined.
